(** * Simplify Money gold flow: a shallow embedding of [main.py]

    The service keeps two tables (users, purchases), classifies free-text
    messages by keyword containment, and converts between rupees and grams
    at a fixed price.  This development embeds the handlers of [main.py] as
    state-passing functions over the two tables and states the properties
    of the service about them.

    Modelling choices, each following the source:
    - Python [float] is IEEE binary64: the kernel's primitive [float], with
      [/] raising [ZeroDivisionError] on a zero divisor and the builtin
      [round(x, n)] rounding the exact value of [x] to [n] decimals (ties to
      even) and returning the nearest double;
    - Python [str] is a [string] (its UTF-8 bytes); [str.lower] is modelled
      on the ASCII letters, which is where every keyword lives;
    - the store is SQLite, the default of [DATABASE_URL]: [users] is a
      finite map keyed by the primary key, [purchases] a list of rows in
      insertion order; the [unique] constraint of [Purchase.txn_id] makes a
      commit with a known transaction id fail; an integer outside the
      signed 64-bit range cannot be bound to a statement
      ([OverflowError]); a NaN is stored as NULL, which is no float when a
      row is read back (the sign of a zero, which [==] does not see, is
      kept here where SQLite drops it);
    - a handler is modelled up to the value it returns or the exception
      it lets escape; rendering the returned value as JSON is left out;
    - how far two doubles are apart is measured between the real numbers
      they stand for;
    - what a handler reads from outside ([datetime.utcnow], [uuid4]) is an
      explicit argument, so nothing is assumed about clocks or randomness. *)

From Stdlib Require Import ZArith Reals Lra Floats String Ascii.
From stdpp Require Import gmap strings list sorting.

Set Warnings "-inexact-float".
Local Open Scope Z_scope.

(** ** Python floats *)

Module PyFloat.

(** Python's truth value of a float: everything but [0.0] and [-0.0]. *)
Definition truthy (x : float) : bool := negb (PrimFloat.eqb x 0).

(** [x / y] on floats: [ZeroDivisionError] when [y == 0.0]. *)
Definition div (x y : float) : option float :=
  if PrimFloat.eqb y 0 then None else Some (PrimFloat.div x y).

(** The integer nearest to [num / den], ties to the even one ([0 < den]). *)
Definition round_half_even (num den : Z) : Z :=
  let q := num / den in
  match 2 * (num mod den) ?= den with
  | Lt => q
  | Gt => q + 1
  | Eq => if Z.even q then q else q + 1
  end.

(** The decimal [q / 10^n] that [round] prints for a finite double
    [m * 2^e]: its numerator [q]. *)
Definition scaled_numerator (m : positive) (e : Z) (ndigits : N) : Z :=
  let scale := 10 ^ Z.of_N ndigits in
  if 0 <=? e then Z.pos m * 2 ^ e * scale
  else round_half_even (Z.pos m * scale) (2 ^ (- e)).

(** The builtin [round(x, ndigits)] for [ndigits >= 0]: infinities and
    NaN round to themselves; a finite double is rounded to a decimal with
    [ndigits] places, and that decimal is read back as the nearest
    double (a correctly rounded division of two integers). *)
Definition round (x : float) (ndigits : N) : float :=
  match Prim2SF x with
  | S754_finite s m e =>
      match scaled_numerator m e ndigits, 10 ^ Z.of_N ndigits with
      | Z.pos q, Z.pos scale =>
          SF2Prim (SFdiv prec emax (S754_finite s q 0) (S754_finite false scale 0))
      | _, _ => SF2Prim (S754_zero s)
      end
  | _ => x
  end.

(** [math.isfinite(x)] *)
Definition isfinite (x : float) : bool :=
  negb (PrimFloat.is_nan x || PrimFloat.is_infinity x).

End PyFloat.

(** ** The real numbers behind the doubles

    What a double stands for, to say how far two doubles are apart. *)

(** Powers of two. *)
Definition bpow (e : Z) : R := powerRZ 2 e.

(** The magnitude [m * 2^e]. *)
Definition F2R (m : positive) (e : Z) : R := (IZR (Z.pos m) * bpow e)%R.

(** The real number of a double; an infinity or a NaN counts as 0. *)
Definition SF2R (x : spec_float) : R :=
  match x with
  | S754_finite s m e => if s then (- F2R m e)%R else F2R m e
  | _ => 0%R
  end.

Definition real_of_float (x : float) : R := SF2R (Prim2SF x).

(** The error a rounding may make at a value [v]: a unit in the last
    place, at most [v * 2^-52] for a normal result and [2^-1074] below. *)
Definition ulp_bound (v : R) : R := Rmax (v * bpow (-52)) (bpow (-1074)).

(** The possible results of rounding a positive real [v], with the sign
    [s]: zero when [v] is below the smallest unit, a valid double within
    a unit in the last place, or an infinity when [v] is out of range. *)
Definition rounds_to (s : bool) (v : R) (x : spec_float) : Prop :=
  (x = S754_zero s ∧ (v <= ulp_bound v)%R) ∨
  (∃ mf ef, x = S754_finite s mf ef ∧ bounded prec emax mf ef = true ∧
            (v - ulp_bound v <= F2R mf ef <= v + ulp_bound v)%R) ∨
  (x = S754_infinity s ∧ (bpow 1023 <= v)%R).

(** ** Python strings *)

Module PyStr.

Definition is_upper (c : ascii) : bool :=
  let n := nat_of_ascii c in (65 <=? n)%nat && (n <=? 90)%nat.

Definition lower_char (c : ascii) : ascii :=
  if is_upper c then ascii_of_nat (nat_of_ascii c + 32) else c.

(** [s.lower()] *)
Fixpoint lower (s : string) : string :=
  match s with
  | EmptyString => EmptyString
  | String c s' => String (lower_char c) (lower s')
  end.

(** [s.startswith(p)] *)
Fixpoint startswith (p s : string) : bool :=
  match p, s with
  | EmptyString, _ => true
  | String a p', String b s' => if Ascii.eqb a b then startswith p' s' else false
  | String _ _, EmptyString => false
  end.

(** [sub in s] *)
Fixpoint contains (sub s : string) : bool :=
  startswith sub s ||
  match s with
  | EmptyString => false
  | String _ s' => contains sub s'
  end.

(** [bool(s)] for an optional string: [None] and the empty string are
    false. *)
Definition truthy (s : option string) : bool :=
  match s with
  | Some (String _ _) => true
  | _ => false
  end.

(** [sep.join(parts)] *)
Fixpoint join (sep : string) (parts : list string) : string :=
  match parts with
  | [] => EmptyString
  | [p] => p
  | p :: rest => p +:+ sep +:+ join sep rest
  end.

(** [sub] occurs in [s]: the specification of [contains]. *)
Definition occurs_in (sub s : string) : Prop :=
  ∃ pre post, s = pre +:+ sub +:+ post.

End PyStr.

(** ** Utility functions of [main.py] *)

Local Open Scope string_scope.

Definition GOLD_KEYWORDS : list string :=
  [ "gold"; "24k"; "24 karat"; "22k"; "sovereign gold bond"; "sgb"; "digital gold";
    "invest in gold"; "gold price"; "gold rate"; "buy gold"; "sell gold"; "gold etf";
    "gold mutual fund"; "gold returns"; "gold inflation hedge"; "gold taxation" ].

Definition BUY_INTENT : list string :=
  [ "buy"; "purchase"; "invest"; "yes"; "proceed"; "confirm"; "place order" ].

Definition is_gold_related (message : string) : bool :=
  existsb (fun kw => PyStr.contains kw (PyStr.lower message)) GOLD_KEYWORDS.

Definition has_buy_intent (message : string) : bool :=
  existsb (fun w => PyStr.contains w (PyStr.lower message)) BUY_INTENT.

(** ** Database models *)

(** A [datetime] is a point on the clock, in microseconds; [isoformat]
    renders it injectively, so the rendering is left out. *)
Definition datetime := Z.

Module User.
Record t := mk {
  id : Z;
  name : option string;
  email : option string;
  phone : option string;
  created_at : datetime
}.
End User.

(** A [Float] column holds a double or NULL.  SQLite stores a NaN as NULL
    and nothing else as NULL here, so a NaN in a row stands for NULL. *)
Module Purchase.
Record t := mk {
  id : Z;
  user_id : Z;
  txn_id : string;
  grams : float;
  inr_amount : float;
  price_per_gram : float;
  provider : string;
  status : string;
  created_at : datetime
}.
End Purchase.

(** The two tables.  [users] is keyed by the primary key; [purchases] keeps
    its rows in insertion order. *)
Record DB := mkDB {
  users : gmap Z User.t;
  purchases : list Purchase.t
}.

Definition empty_db : DB := mkDB ∅ [].

(** What one request reads from outside the program: the clock at the two
    inserts and the value of [uuid4()]. *)
Record Outside := mkOutside {
  utcnow_user : datetime;
  utcnow_purchase : datetime;
  uuid4 : string
}.

(** The user row stored under a key. *)
Definition get_user (db : DB) (user_id : Z) : option User.t := users db !! user_id.

(** [db.add(u); db.commit()] for a user row whose key is free. *)
Definition add_user (u : User.t) (db : DB) : DB :=
  mkDB (<[User.id u := u]> (users db)) (purchases db).

(** The key the store assigns to a row inserted without one: one more than
    the largest key in use, [1] in an empty table.  (Once the largest
    64-bit key is in use SQLite draws an unused key at random instead; what
    is proved below uses only that the key is unused.) *)
Definition next_user_id (db : DB) : Z :=
  match map_fold (fun k _ acc => Some (from_option (Z.max k) k acc)) None (users db) with
  | None => 1
  | Some m => m + 1
  end.

Definition next_purchase_id (db : DB) : Z :=
  foldr Z.max 0 (Purchase.id <$> purchases db) + 1.

Definition txn_ids (db : DB) : list string := Purchase.txn_id <$> purchases db.

(** [db.add(p); db.commit()] for a purchase row: the [unique] constraint on
    [txn_id] refuses a transaction id that is already stored. *)
Definition add_purchase (p : Purchase.t) (db : DB) : option DB :=
  if decide (Purchase.txn_id p ∈ txn_ids db) then None
  else Some (mkDB (users db) (purchases db ++ [p])).

(** ** Schemas *)

Module AdvisorRequest.
Record t := mk {
  message : string;
  user_id : option Z;
  name : option string;
  email : option string;
  phone : option string
}.
End AdvisorRequest.

(** The [expected_body] and [next_action] dictionaries of the advisor. *)
Module ExpectedBody.
Record t := mk {
  user_id : Z + string;
  amount_in_inr : Z
}.
End ExpectedBody.

Module NextAction.
Record t := mk {
  label : string;
  endpoint : string;
  method : string;
  expected_body : ExpectedBody.t
}.
End NextAction.

Module AdvisorResponse.
Record t := mk {
  is_gold_related : bool;
  response : string;
  suggest_purchase : bool;
  redirect_to_purchase : bool;
  next_action : option NextAction.t;
  user_id : option Z
}.
End AdvisorResponse.

Module PurchaseRequest.
Record t := mk {
  user_id : Z;
  amount_in_inr : option float;
  grams : option float
}.

(** The constraints [Field(None, ge=1)] and [Field(None, ge=0.01)]. *)
Definition valid (req : t) : bool :=
  match amount_in_inr req with
  | None => true
  | Some a => PrimFloat.leb 1 a
  end &&
  match grams req with
  | None => true
  | Some g => PrimFloat.leb 0.01 g
  end.
End PurchaseRequest.

Module PurchaseReceipt.
Record t := mk {
  success : bool;
  message : string;
  txn_id : string;
  user_id : Z;
  grams : float;
  inr_amount : float;
  price_per_gram : float;
  provider : string;
  created_at : datetime
}.
End PurchaseReceipt.

(** One element of the list that [list_purchases] returns. *)
Module PurchaseItem.
Record t := mk {
  txn_id : string;
  grams : float;
  inr_amount : float;
  price_per_gram : float;
  status : string;
  created_at : datetime
}.
End PurchaseItem.

(** ** Outcomes of a request *)

(** The exceptions that the handlers let escape. *)
Inductive Uncaught :=
  | ZeroDivisionError
  | TypeError
  | IntegrityError
  | OverflowError        (* an integer that SQLite cannot bind *)
  | ValidationError.     (* a NULL where [PurchaseReceipt] wants a float *)

Inductive Response (A : Type) :=
  | OK (body : A)                                  (* 200 *)
  | HTTPException (status_code : Z) (detail : string)
  | RequestValidationError                         (* 422, raised before the handler *)
  | ServerError (exc : Uncaught).                  (* 500 *)
Arguments OK {A} body.
Arguments HTTPException {A} status_code detail.
Arguments RequestValidationError {A}.
Arguments ServerError {A} exc.

(** The integers that can be bound to a statement: a Python [int] outside
    the signed 64-bit range raises [OverflowError]. *)
Definition binds (n : Z) : bool := ((- 2 ^ 63 <=? n) && (n <? 2 ^ 63))%Z.

(** [db.get(User, user_id)]: the identifier is bound, then looked up. *)
Definition db_get (db : DB) (user_id : Z) : Uncaught + option User.t :=
  if binds user_id then inr (get_user db user_id) else inl OverflowError.

(** The identifiers that the advisor can resolve: none given, [0] (never
    looked up), or one that can be bound. *)
Definition resolvable (user_id : option Z) : bool :=
  match user_id with
  | Some n => (n =? 0)%Z || binds n
  | None => true
  end.

(** What [PurchaseReceipt] takes for a float: anything but the NULL that a
    NaN has become. *)
Definition is_null (x : float) : bool := PrimFloat.is_nan x.

(** The body of [GET /price]. *)
Module PriceQuote.
Record t := mk {
  price_per_gram_inr : float;
  source : string
}.
End PriceQuote.

(** ** Sample data

    The default configuration and a few requests, used to run the handlers
    on concrete inputs. *)

Definition default_price : float := 6500%float.

(** The text Python prints for the default price. *)
Definition show_default_price (_ : float) : string := "6500.0".

Definition outside_a : Outside := mkOutside 1000 1001 "9f1c2d3e-0001".
Definition outside_b : Outside := mkOutside 2000 2001 "9f1c2d3e-0002".

(** Scenario 1: [{"user_id": 1, "amount_in_inr": 1000}] *)
Definition request_1000 : PurchaseRequest.t :=
  PurchaseRequest.mk 1 (Some 1000%float) None.

(** [{"user_id": 1, "amount_in_inr": 1000, "grams": 5}] *)
Definition request_both : PurchaseRequest.t :=
  PurchaseRequest.mk 1 (Some 1000%float) (Some 5%float).

(** [{"user_id": 1, "grams": 1.5}] *)
Definition request_grams : PurchaseRequest.t :=
  PurchaseRequest.mk 1 None (Some 1.5%float).

(** An amount computed from a gram quantity: [grams * price]. *)
Definition request_for_grams (g : float) : PurchaseRequest.t :=
  PurchaseRequest.mk 1 (Some (g * default_price)%float) None.

Definition ask (message : string) (user_id : option Z) : AdvisorRequest.t :=
  AdvisorRequest.mk message user_id None None None.

(** Scenario 1 of the service: the receipt for 1000 rupees at 6500 a gram,
    and the row it stores. *)
Definition receipt_1000 : PurchaseReceipt.t :=
  PurchaseReceipt.mk true "Digital gold purchase successful (demo)."
    "9f1c2d3e-0001" 1 0.1538%float 1000%float 6500%float
    "SimplifyMoney-DigitalGold" 1001.

Definition row_1000 : Purchase.t :=
  Purchase.mk 1 1 "9f1c2d3e-0001" 0.1538%float 1000%float 6500%float
    "SimplifyMoney-DigitalGold" "SUCCESS" 1001.

Definition row_grams : Purchase.t :=
  Purchase.mk 2 1 "9f1c2d3e-0002" 1.5%float 9750%float 6500%float
    "SimplifyMoney-DigitalGold" "SUCCESS" 2001.

(** The receipt for 1.5 grams at 6500 a gram. *)
Definition receipt_grams : PurchaseReceipt.t :=
  PurchaseReceipt.mk true "Digital gold purchase successful (demo)."
    "9f1c2d3e-0002" 1 1.5%float 9750%float 6500%float
    "SimplifyMoney-DigitalGold" 2001.

(** A first contact that leaves a name and nothing else. *)
Definition introduce (message name : string) : AdvisorRequest.t :=
  AdvisorRequest.mk message None (Some name) None None.

(** ** Routes *)

Section Service.

(** The process-wide price, read once from the environment (6500 when the
    variable is unset), and Python's formatting of a float in an f-string. *)
Variable GOLD_PRICE_PER_GRAM_INR_DEFAULT : float.
Variable format_float : float → string.

Set Default Proof Using "Type".

Definition get_effective_price_per_gram_inr : float := GOLD_PRICE_PER_GRAM_INR_DEFAULT.

(** The first block of [advisor]: resolve or create the user.  [elif
    user_id:] tests the truth value of the identifier, so [0] goes neither
    way; any other identifier is looked up, which fails when it cannot be
    bound. *)
Definition advisor_user (env : Outside) (db : DB) (req : AdvisorRequest.t)
    : Uncaught + (option Z * DB) :=
  match AdvisorRequest.user_id req with
  | None =>
      if PyStr.truthy (AdvisorRequest.name req)
         || PyStr.truthy (AdvisorRequest.email req)
         || PyStr.truthy (AdvisorRequest.phone req)
      then
        let u := User.mk (next_user_id db) (AdvisorRequest.name req)
                   (AdvisorRequest.email req) (AdvisorRequest.phone req)
                   (utcnow_user env) in
        inr (Some (User.id u), add_user u db)
      else inr (None, db)
  | Some user_id =>
      if (user_id =? 0)%Z then inr (Some user_id, db)
      else
        match db_get db user_id with
        | inl exc => inl exc
        | inr None =>
            inr (Some user_id, add_user (User.mk user_id None None None (utcnow_user env)) db)
        | inr (Some _) => inr (Some user_id, db)
        end
  end.

Definition nudge : string :=
  "You can invest in gold via the Simplify Money app using **Digital Gold** — start with just ₹10.".

(** [user_id or "<your_user_id>"] *)
Definition user_id_or_placeholder (user_id : option Z) : Z + string :=
  match user_id with
  | Some n => if (n =? 0)%Z then inr "<your_user_id>" else inl n
  | None => inr "<your_user_id>"
  end.

(** The answer of the advisor for a resolved user. *)
Definition advisor_response (message : string) (user_id : option Z) : AdvisorResponse.t :=
  if negb (is_gold_related message) then
    AdvisorResponse.mk false
      "I can help with many finance topics. Ask about gold for advice and digital gold purchase options."
      false false None user_id
  else
    let facts :=
      if PyStr.contains "price" (PyStr.lower message)
      then ["Indicative price: ₹" +:+ format_float get_effective_price_per_gram_inr +:+ " per gram."]
      else ["Gold is a safe-haven asset and can hedge against inflation."] in
    let buy_intent := has_buy_intent message in
    AdvisorResponse.mk true
      (PyStr.join (String (ascii_of_nat 10) "") (facts ++ [nudge]))
      true
      buy_intent
      (Some (NextAction.mk "Buy digital gold now" "/purchase" "POST"
               (ExpectedBody.mk (user_id_or_placeholder user_id) 1000)))
      user_id.

Definition advisor (env : Outside) (db : DB) (req : AdvisorRequest.t)
    : Response AdvisorResponse.t * DB :=
  match advisor_user env db req with
  | inl exc => (ServerError exc, db)
  | inr (user_id, db) => (OK (advisor_response (AdvisorRequest.message req) user_id), db)
  end.

(** The quantity of gold bought, before any rounding:
    [req.amount_in_inr / price_per_gram if req.amount_in_inr else req.grams].
    A zero price makes the division raise; with neither branch giving a
    number the product on the next line raises. *)
Definition purchase_grams (req : PurchaseRequest.t) : Uncaught + float :=
  let price_per_gram := get_effective_price_per_gram_inr in
  let from_grams :=
    match PurchaseRequest.grams req with
    | Some g => inr g
    | None => inl TypeError
    end in
  match PurchaseRequest.amount_in_inr req with
  | Some a =>
      if PyFloat.truthy a then
        match PyFloat.div a price_per_gram with
        | Some g => inr g
        | None => inl ZeroDivisionError
        end
      else from_grams
  | None => from_grams
  end.

(** The user of a purchase once the lookup has answered: the one found, or
    a new one with the given identifier. *)
Definition found_or_created (env : Outside) (db : DB) (user_id : Z)
    (found : option User.t) : User.t * DB :=
  match found with
  | Some user => (user, db)
  | None =>
      let user := User.mk user_id None None None (utcnow_user env) in
      (user, add_user user db)
  end.

Definition purchase_user (env : Outside) (db : DB) (req : PurchaseRequest.t)
    : Uncaught + (User.t * DB) :=
  match db_get db (PurchaseRequest.user_id req) with
  | inl exc => inl exc
  | inr found => inr (found_or_created env db (PurchaseRequest.user_id req) found)
  end.

(** The user and the store that a purchase works with once the lookup has
    answered. *)
Definition resolved (env : Outside) (db : DB) (req : PurchaseRequest.t) : User.t * DB :=
  found_or_created env db (PurchaseRequest.user_id req)
    (get_user db (PurchaseRequest.user_id req)).

(** The row that [purchase] adds for [grams] grams of a user. *)
Definition purchase_entry (env : Outside) (db : DB) (user : User.t) (grams : float)
    : Purchase.t :=
  let price_per_gram := get_effective_price_per_gram_inr in
  let inr_amount := PrimFloat.mul grams price_per_gram in
  Purchase.mk (next_purchase_id db) (User.id user) (uuid4 env)
    (PyFloat.round grams 4) (PyFloat.round inr_amount 2) price_per_gram
    "SimplifyMoney-DigitalGold" "SUCCESS" (utcnow_purchase env).

(** [PurchaseReceipt(...)] from the row as [db.refresh] has read it back:
    a NULL among the three numbers is refused. *)
Definition purchase_receipt (entry : Purchase.t) : Uncaught + PurchaseReceipt.t :=
  if is_null (Purchase.grams entry) || is_null (Purchase.inr_amount entry)
     || is_null (Purchase.price_per_gram entry)
  then inl ValidationError
  else inr (PurchaseReceipt.mk true "Digital gold purchase successful (demo)."
              (Purchase.txn_id entry) (Purchase.user_id entry)
              (Purchase.grams entry) (Purchase.inr_amount entry)
              (Purchase.price_per_gram entry) (Purchase.provider entry)
              (Purchase.created_at entry)).

Definition purchase (env : Outside) (db : DB) (req : PurchaseRequest.t)
    : Response PurchaseReceipt.t * DB :=
  match PurchaseRequest.amount_in_inr req, PurchaseRequest.grams req with
  | None, None => (HTTPException 400 "Provide either amount_in_inr or grams", db)
  | _, _ =>
      match purchase_user env db req with
      | inl exc => (ServerError exc, db)
      | inr (user, db) =>
          match purchase_grams req with
          | inl exc => (ServerError exc, db)
          | inr grams =>
              let entry := purchase_entry env db user grams in
              match add_purchase entry db with
              | None => (ServerError IntegrityError, db)
              | Some db =>
                  match purchase_receipt entry with
                  | inl exc => (ServerError exc, db)
                  | inr receipt => (OK receipt, db)
                  end
              end
          end
      end
  end.

(** [POST /purchase]: the body is checked against the schema before the
    handler runs. *)
Definition post_purchase (env : Outside) (db : DB) (req : PurchaseRequest.t)
    : Response PurchaseReceipt.t * DB :=
  if PurchaseRequest.valid req then purchase env db req
  else (RequestValidationError, db).

(** [order_by(Purchase.created_at.desc())] *)
Definition created_desc (p q : Purchase.t) : Prop :=
  (Purchase.created_at q ≤ Purchase.created_at p)%Z.

#[global] Instance created_desc_dec : RelDecision created_desc :=
  fun p q => decide (Purchase.created_at q ≤ Purchase.created_at p)%Z.

Definition purchase_item (p : Purchase.t) : PurchaseItem.t :=
  PurchaseItem.mk (Purchase.txn_id p) (Purchase.grams p) (Purchase.inr_amount p)
    (Purchase.price_per_gram p) (Purchase.status p) (Purchase.created_at p).

(** The rows that the query of [list_purchases] selects once [user_id] is
    bound, and the list built from them. *)
Definition query_purchases (db : DB) (user_id : Z) : list Purchase.t :=
  merge_sort created_desc (filter (fun p => Purchase.user_id p = user_id) (purchases db)).

Definition list_purchases (db : DB) (user_id : Z) : list PurchaseItem.t :=
  purchase_item <$> query_purchases db user_id.

(** [GET /purchases/{user_id}]: the identifier is bound to the filter,
    which fails when it does not fit. *)
Definition get_purchases (db : DB) (user_id : Z) : Response (list PurchaseItem.t) :=
  if binds user_id then OK (list_purchases db user_id)
  else ServerError OverflowError.

(** ** The service as a state machine *)

Inductive Call :=
  | POST_advisor (env : Outside) (req : AdvisorRequest.t)
  | POST_purchase (env : Outside) (req : PurchaseRequest.t)
  | GET_purchases (user_id : Z).

Definition handle (db : DB) (c : Call) : DB :=
  match c with
  | POST_advisor env req => snd (advisor env db req)
  | POST_purchase env req => snd (post_purchase env db req)
  | GET_purchases _ => db
  end.

(** Two purchases of one user, the second one later. *)
Definition two_purchases : list Call :=
  [POST_purchase outside_a request_1000; POST_purchase outside_b request_grams].

(** The store after a sequence of calls, from the empty store. *)
Definition run (calls : list Call) : DB := foldl handle empty_db calls.

(** What every store that the service can reach satisfies: transaction ids
    are pairwise distinct, every purchase belongs to a stored user, and a
    user row sits under its own key. *)
Record consistent (db : DB) : Prop := {
  txn_ids_NoDup : NoDup (txn_ids db);
  purchase_owner : ∀ p, p ∈ purchases db → is_Some (users db !! Purchase.user_id p);
  user_key : ∀ k u, users db !! k = Some u → User.id u = k
}.

(** Newest first, on the returned items. *)
Definition newest_first (a b : PurchaseItem.t) : Prop :=
  (PurchaseItem.created_at b ≤ PurchaseItem.created_at a)%Z.

(** An item of the history shows a row: each of its six fields is the
    field of the row. *)
Definition shows (item : PurchaseItem.t) (row : Purchase.t) : Prop :=
  PurchaseItem.txn_id item = Purchase.txn_id row ∧
  PurchaseItem.grams item = Purchase.grams row ∧
  PurchaseItem.inr_amount item = Purchase.inr_amount row ∧
  PurchaseItem.price_per_gram item = Purchase.price_per_gram row ∧
  PurchaseItem.status item = Purchase.status row ∧
  PurchaseItem.created_at item = Purchase.created_at row.

(** [GET /price] *)
Definition price : PriceQuote.t :=
  PriceQuote.mk get_effective_price_per_gram_inr "fixed_env_or_default".

(** [db'] holds everything [db] holds: the purchases of [db] in their
    order at the front, and every user row of [db] as it was. *)
Definition extends (db db' : DB) : Prop :=
  purchases db `prefix_of` purchases db' ∧
  ∀ k u, users db !! k = Some u → users db' !! k = Some u.

(** The keywords of [GOLD_KEYWORDS] that contain no other keyword. *)
Definition gold_stems : list string := ["gold"; "24k"; "24 karat"; "22k"; "sgb"].

(** The item of [list_purchases] that a receipt announces. *)
Definition receipt_item (r : PurchaseReceipt.t) : PurchaseItem.t :=
  PurchaseItem.mk (PurchaseReceipt.txn_id r) (PurchaseReceipt.grams r)
    (PurchaseReceipt.inr_amount r) (PurchaseReceipt.price_per_gram r)
    "SUCCESS" (PurchaseReceipt.created_at r).

(** ** The classifier *)

Lemma append_cons c a b : String c a +:+ b = String c (a +:+ b).
Proof. reflexivity. Qed.

Lemma startswith_spec p s :
  PyStr.startswith p s = true ↔ ∃ post, s = p +:+ post.
Proof.
  revert s. induction p as [|a p IH]; intros s; simpl.
  - split; [eauto | done].
  - destruct s as [|b s].
    + split; [done | intros [post H]; discriminate].
    + setoid_rewrite append_cons.
      destruct (Ascii.eqb_spec a b) as [->|Hne].
      * rewrite IH. split; intros [post H]; exists post; congruence.
      * split; [done | intros [post H]; congruence].
Qed.

Lemma contains_spec sub s :
  PyStr.contains sub s = true ↔ PyStr.occurs_in sub s.
Proof.
  unfold PyStr.occurs_in. induction s as [|c s IH]; simpl.
  - rewrite orb_false_r, startswith_spec. split.
    + intros [post H]. by exists "", post.
    + intros ([|??] & post & H); [eauto | discriminate].
  - rewrite orb_true_iff, startswith_spec, IH. split.
    + intros [[post H] | (pre & post & H)].
      * by exists "", post.
      * exists (String c pre), post. rewrite append_cons. congruence.
    + intros ([|c' pre] & post & H).
      * left. eauto.
      * right. exists pre, post. rewrite append_cons in H. congruence.
Qed.

(** Lower-casing works character by character, so it keeps occurrences. *)
Lemma lower_append a b : PyStr.lower (a +:+ b) = PyStr.lower a +:+ PyStr.lower b.
Proof.
  induction a as [|c a IH]; [done|].
  rewrite append_cons. simpl. rewrite append_cons. congruence.
Qed.

Lemma occurs_in_lower sub s :
  PyStr.occurs_in sub s → PyStr.occurs_in (PyStr.lower sub) (PyStr.lower s).
Proof.
  intros (pre & post & ->). exists (PyStr.lower pre), (PyStr.lower post).
  by rewrite !lower_append.
Qed.

(** [any(kw in s for kw in kws)] *)
Lemma existsb_contains (kws : list string) (s : string) :
  existsb (fun kw => PyStr.contains kw s) kws = true ↔
  ∃ kw, kw ∈ kws ∧ PyStr.occurs_in kw s.
Proof.
  rewrite existsb_exists. split; intros (kw & Hin & H); exists kw.
  - by rewrite list_elem_of_In, <- contains_spec.
  - by rewrite <- list_elem_of_In, contains_spec.
Qed.

(** C9: [is_gold_related] is true exactly for the messages whose lower-cased
    text contains a gold keyword as a substring (so false for all others),
    [has_buy_intent] likewise for the buy-intent words; in particular a
    message containing a keyword in any mix of upper and lower case is
    recognised. *)
Theorem classifier_keyword_containment (message : string) :
  (is_gold_related message = true ↔
     ∃ kw, kw ∈ GOLD_KEYWORDS ∧ PyStr.occurs_in kw (PyStr.lower message)) ∧
  (has_buy_intent message = true ↔
     ∃ w, w ∈ BUY_INTENT ∧ PyStr.occurs_in w (PyStr.lower message)) ∧
  (∀ kw written, kw ∈ GOLD_KEYWORDS → PyStr.lower written = kw →
     PyStr.occurs_in written message → is_gold_related message = true) ∧
  (∀ w written, w ∈ BUY_INTENT → PyStr.lower written = w →
     PyStr.occurs_in written message → has_buy_intent message = true).
Proof.
  unfold is_gold_related, has_buy_intent. rewrite !existsb_contains.
  repeat split; try done.
  all: intros kw written Hin <- Hocc; apply existsb_contains;
    exists (PyStr.lower written); split; [done | by apply occurs_in_lower].
Qed.

(** ** The advisor *)

Lemma binds_user_get db user_id :
  binds user_id = true → db_get db user_id = inr (get_user db user_id).
Proof. intros H. unfold db_get. by rewrite H. Qed.

Lemma not_binds_user_get db user_id :
  binds user_id = false → db_get db user_id = inl OverflowError.
Proof. intros H. unfold db_get. by rewrite H. Qed.

(** The advisor resolves the user exactly when the identifier is
    resolvable; otherwise the lookup raises. *)
Lemma advisor_user_resolvable env db req :
  resolvable (AdvisorRequest.user_id req) = true →
  ∃ user_id db', advisor_user env db req = inr (user_id, db').
Proof.
  unfold resolvable, advisor_user, db_get.
  destruct (AdvisorRequest.user_id req) as [n|].
  - destruct (n =? 0)%Z; simpl; [eauto|]. intros ->.
    destruct (get_user db n); eauto.
  - intros _. destruct (_ || _); eauto.
Qed.

Lemma advisor_user_unresolvable env db req :
  resolvable (AdvisorRequest.user_id req) = false →
  advisor_user env db req = inl OverflowError.
Proof.
  unfold resolvable, advisor_user, db_get.
  destruct (AdvisorRequest.user_id req) as [n|]; [|done].
  destruct (n =? 0)%Z; simpl; [done|]. by intros ->.
Qed.

Lemma advisor_unresolvable env db req :
  resolvable (AdvisorRequest.user_id req) = false →
  advisor env db req = (ServerError OverflowError, db).
Proof. intros H. unfold advisor. by rewrite (advisor_user_unresolvable _ _ _ H). Qed.

Lemma advisor_OK_inv env db req body :
  fst (advisor env db req) = OK body →
  resolvable (AdvisorRequest.user_id req) = true ∧
  ∃ user_id,
    advisor_user env db req = inr (user_id, snd (advisor env db req)) ∧
    body = advisor_response (AdvisorRequest.message req) user_id.
Proof.
  destruct (resolvable (AdvisorRequest.user_id req)) eqn:Hr.
  - destruct (advisor_user_resolvable env db req Hr) as (user_id & db' & Hu).
    unfold advisor. rewrite Hu. simpl. intros [= <-]. eauto.
  - by rewrite (advisor_unresolvable _ _ _ Hr).
Qed.

Lemma advisor_store env db req :
  snd (advisor env db req)
    = match advisor_user env db req with
      | inl _ => db
      | inr (_, db') => db'
      end.
Proof. unfold advisor. by destruct (advisor_user env db req) as [exc|[user_id db']]. Qed.

(** The answer is decided by the classifier. *)
Lemma advisor_response_fields message user_id :
  AdvisorResponse.is_gold_related (advisor_response message user_id) = is_gold_related message ∧
  AdvisorResponse.suggest_purchase (advisor_response message user_id) = is_gold_related message ∧
  AdvisorResponse.redirect_to_purchase (advisor_response message user_id)
    = is_gold_related message && has_buy_intent message ∧
  AdvisorResponse.user_id (advisor_response message user_id) = user_id ∧
  AdvisorResponse.next_action (advisor_response message user_id) =
    if is_gold_related message
    then Some (NextAction.mk "Buy digital gold now" "/purchase" "POST"
                 (ExpectedBody.mk (user_id_or_placeholder user_id) 1000))
    else None.
Proof. unfold advisor_response. by destruct (is_gold_related message). Qed.

(** C3, as the code has it: the advisor answers exactly when the supplied
    [user_id] is absent, [0] or fits the store's integers, and then the
    response carries a [next_action] exactly when the message is
    gold-related, whether or not it shows buy intent.  A message that is
    not gold-related gets no [next_action] and no redirect; a gold-related
    one gets a [next_action] naming [/purchase], and [redirect_to_purchase]
    exactly when it shows buy intent. *)
Theorem advisor_next_action env db req :
  ((∃ body, fst (advisor env db req) = OK body) ↔
     resolvable (AdvisorRequest.user_id req) = true) ∧
  ∀ body, fst (advisor env db req) = OK body →
    (is_Some (AdvisorResponse.next_action body) ↔
       is_gold_related (AdvisorRequest.message req) = true) ∧
    (is_gold_related (AdvisorRequest.message req) = false →
       AdvisorResponse.next_action body = None ∧
       AdvisorResponse.redirect_to_purchase body = false ∧
       AdvisorResponse.suggest_purchase body = false) ∧
    (is_gold_related (AdvisorRequest.message req) = true →
       AdvisorResponse.redirect_to_purchase body = has_buy_intent (AdvisorRequest.message req) ∧
       ∃ action, AdvisorResponse.next_action body = Some action ∧
                 NextAction.endpoint action = "/purchase").
Proof.
  split.
  - split.
    + intros [body Hbody]. by apply advisor_OK_inv in Hbody as [? _].
    + intros Hr. destruct (advisor_user_resolvable env db req Hr) as (user_id & db' & Hu).
      unfold advisor. rewrite Hu. eauto.
  - intros body (_ & user_id & _ & ->)%advisor_OK_inv.
    destruct (advisor_response_fields (AdvisorRequest.message req) user_id)
      as (_ & Hs & Hr & _ & Hn).
    rewrite Hs, Hr, Hn.
    destruct (is_gold_related _); simpl; repeat split; try done.
    eauto.
Qed.

(** A supplied identifier other than [0] that can be bound and is not in
    the store gets a row of its own, keyed by that identifier. *)
Lemma advisor_creates_supplied_user env db req user_id :
  AdvisorRequest.user_id req = Some user_id →
  user_id ≠ 0 →
  binds user_id = true →
  get_user db user_id = None →
  get_user (snd (advisor env db req)) user_id
    = Some (User.mk user_id None None None (utcnow_user env)).
Proof.
  intros Hreq Hnz Hb Hnew. rewrite advisor_store. unfold advisor_user.
  rewrite Hreq. destruct (Z.eqb_spec user_id 0) as [|_]; [done|].
  rewrite (binds_user_get _ _ Hb), Hnew. unfold get_user. simpl.
  by rewrite lookup_insert_eq.
Qed.

(** The identifier [0] is never created by the advisor: [elif user_id:]
    skips it. *)
Lemma advisor_skips_user_zero env db req :
  AdvisorRequest.user_id req = Some 0 →
  snd (advisor env db req) = db.
Proof.
  intros Hreq. rewrite advisor_store. unfold advisor_user. by rewrite Hreq.
Qed.

(** ** Numbers that the store keeps

    A NaN is what the store turns into NULL.  With a finite, non-zero
    price none of the numbers of a purchase is a NaN. *)

Lemma is_nan_spec (x : float) : PrimFloat.is_nan x = true ↔ Prim2SF x = S754_nan.
Proof.
  unfold Prim2SF. destruct (PrimFloat.is_nan x); [done|].
  split; [done|].
  destruct (PrimFloat.is_zero x); [done|].
  destruct (PrimFloat.is_infinity x); [done|].
  destruct (Z.frexp x) as [r e]. destruct (shr_fexp _ _ _ _ _) as [mrs e'].
  by destruct (shr_m mrs).
Qed.

Lemma not_nan_spec (x : float) : PrimFloat.is_nan x = false ↔ Prim2SF x ≠ S754_nan.
Proof. rewrite <- is_nan_spec. by destruct (PrimFloat.is_nan x). Qed.

Lemma shr_1_nonneg mrs : (0 ≤ shr_m mrs → 0 ≤ shr_m (shr_1 mrs))%Z.
Proof. destruct mrs as [[|[p|p|]|p] r s]; simpl; lia. Qed.

Lemma iter_shr_1_nonneg n mrs :
  (0 ≤ shr_m mrs → 0 ≤ shr_m (SpecFloat.iter_pos shr_1 n mrs))%Z.
Proof.
  revert mrs. induction n as [n IH|n IH|]; intros mrs H; simpl;
    auto using shr_1_nonneg.
Qed.

Lemma shr_fexp_nonneg m e l :
  (0 ≤ m → 0 ≤ shr_m (fst (shr_fexp prec emax m e l)))%Z.
Proof.
  intros H. unfold shr_fexp, shr.
  assert (0 ≤ shr_m (shr_record_of_loc m l))%Z by (by destruct l as [|[]]).
  destruct (_ - e)%Z; simpl; auto using iter_shr_1_nonneg.
Qed.

Lemma round_nearest_even_nonneg m l : (0 ≤ m → 0 ≤ round_nearest_even m l)%Z.
Proof. intros H. destruct l as [|[]]; simpl; try destruct (Z.even m); lia. Qed.

(** Rounding a magnitude to binary64 never gives a NaN. *)
Lemma binary_round_aux_not_nan s m e l :
  (0 ≤ m)%Z → binary_round_aux prec emax s m e l ≠ S754_nan.
Proof.
  intros H. unfold binary_round_aux.
  pose proof (shr_fexp_nonneg m e l H) as H1.
  destruct (shr_fexp prec emax m e l) as [mrs' e']. simpl in H1.
  pose proof (shr_fexp_nonneg _ e' loc_Exact
                (round_nearest_even_nonneg _ (loc_of_shr_record mrs') H1)) as H2.
  destruct (shr_fexp prec emax _ e' loc_Exact) as [mrs'' e'']. simpl in H2.
  destruct (shr_m mrs''); [done| |lia]. by destruct (_ <=? _)%Z.
Qed.

Lemma binary_round_not_nan s m e : binary_round prec emax s m e ≠ S754_nan.
Proof.
  unfold binary_round. destruct (shl_align _ _ _) as [mz ez].
  by apply binary_round_aux_not_nan.
Qed.

Lemma SFmul_finite_not_nan x s m e :
  x ≠ S754_nan → SFmul prec emax x (S754_finite s m e) ≠ S754_nan.
Proof.
  destruct x as [sx|sx| |sx mx ex]; simpl; try done.
  intros _. by apply binary_round_aux_not_nan.
Qed.

Lemma SFdiv_finite_not_nan x s m e :
  x ≠ S754_nan → SFdiv prec emax x (S754_finite s m e) ≠ S754_nan.
Proof.
  destruct x as [sx|sx| |sx mx ex]; simpl; try done.
  intros _. unfold SFdiv_core_binary.
  set (m' := match _ with Z.pos _ => _ | _ => _ end).
  assert (0 ≤ m')%Z.
  { subst m'. destruct (_ - _ - _)%Z; try lia. rewrite Z.shiftl_mul_pow2 by lia.
    apply Z.mul_nonneg_nonneg; [lia|]. apply Z.pow_nonneg. lia. }
  pose proof (Z_div_mod m' (Z.pos m) ltac:(lia)) as Hd.
  destruct (Z.div_eucl m' (Z.pos m)) as [q r].
  apply binary_round_aux_not_nan. nia.
Qed.

(** The double that a specification float denotes is a NaN only for the
    NaN. *)
Lemma SF2Prim_not_nan x : x ≠ S754_nan → PrimFloat.is_nan (SF2Prim x) = false.
Proof.
  intros Hx. destruct x as [[]|[]| |s m e]; try done. simpl.
  assert (H : PrimFloat.is_nan (Z.ldexp (of_uint63 (Uint63.of_Z (Z.pos m))) e) = false).
  { apply not_nan_spec. unfold Z.ldexp.
    rewrite ldshiftexp_spec, of_uint63_spec.
    set (n := Uint63.to_Z _). set (e' := (_ - FloatOps.shift)%Z).
    assert (Hn : binary_normalize prec emax n 0 false ≠ S754_nan).
    { destruct n; simpl; [done| |]; apply binary_round_not_nan. }
    destruct (binary_normalize prec emax n 0 false) as [?|?| |??]; simpl; try done.
    apply binary_round_not_nan. }
  destruct s; [|done].
  apply not_nan_spec. rewrite opp_spec. apply not_nan_spec in H.
  by destruct (Prim2SF _).
Qed.

Lemma round_not_nan x ndigits :
  PrimFloat.is_nan x = false → PrimFloat.is_nan (PyFloat.round x ndigits) = false.
Proof.
  intros Hx. unfold PyFloat.round.
  destruct (Prim2SF x) as [s|s| |s m e] eqn:E; try done.
  destruct (PyFloat.scaled_numerator m e ndigits), (10 ^ Z.of_N ndigits)%Z;
    apply SF2Prim_not_nan; try done.
  by apply SFdiv_finite_not_nan.
Qed.

(** A finite, non-zero double has a mantissa and an exponent. *)
Lemma finite_nonzero_spec (x : float) :
  PyFloat.isfinite x = true → PrimFloat.eqb x 0 = false →
  ∃ s m e, Prim2SF x = S754_finite s m e.
Proof.
  unfold PyFloat.isfinite. intros Hf Hz.
  apply negb_true_iff, orb_false_iff in Hf as [Hn Hi].
  apply not_nan_spec in Hn. unfold PrimFloat.is_infinity in Hi.
  rewrite FloatAxioms.eqb_spec, abs_spec in Hi.
  rewrite FloatAxioms.eqb_spec in Hz.
  destruct (Prim2SF x) as [s|s| |s m e]; [| |done|by eauto].
  - by vm_compute in Hz.
  - by vm_compute in Hi.
Qed.

Local Open Scope Z_scope.

(** ** Binary64 rounding, on integers *)

Lemma digits2_pos_size p : digits2_pos p = Pos.size p.
Proof. induction p as [p IH|p IH|]; simpl; by rewrite ?IH. Qed.

Lemma Zdigits2_log2 m : 0 < m → Zdigits2 m = Z.log2 m + 1.
Proof.
  destruct m as [|p|p]; [lia| |lia]. intros _. simpl.
  destruct p as [p|p|]; simpl; rewrite ?digits2_pos_size; lia.
Qed.

Lemma Zdigits2_bounds m : 0 < m → 2 ^ (Zdigits2 m - 1) ≤ m < 2 ^ Zdigits2 m.
Proof.
  intros Hm. rewrite (Zdigits2_log2 m Hm).
  replace (Z.log2 m + 1 - 1) with (Z.log2 m) by lia.
  apply (Z.log2_spec m Hm).
Qed.

Lemma Zdigits2_nonneg m : 0 ≤ Zdigits2 m.
Proof. by destruct m. Qed.

Lemma Zdigits2_unique m d : 2 ^ (d - 1) ≤ m < 2 ^ d → 0 < m → Zdigits2 m = d.
Proof.
  intros H Hm. rewrite (Zdigits2_log2 m Hm).
  assert (0 ≤ d - 1).
  { destruct (Z.le_gt_cases 0 (d - 1)) as [|Hneg]; [done|].
    assert (d ≤ 0) by lia.
    destruct (Z.eq_dec d 0) as [->|]; [simpl in H; lia|].
    rewrite (Z.pow_neg_r 2 d) in H by lia. lia. }
  rewrite (Z.log2_unique m (d - 1)); [lia | done |].
  by replace (Z.succ (d - 1)) with d by lia.
Qed.

Lemma Zdigits2_le m d : 0 ≤ m → 0 ≤ d → m < 2 ^ d → Zdigits2 m ≤ d.
Proof.
  intros Hm Hd Hlt. destruct (Z.eq_dec m 0) as [->|]; [done|].
  rewrite Zdigits2_log2 by lia.
  enough (Z.log2 m < d) by lia. apply Z.log2_lt_pow2; lia.
Qed.

Lemma Zdigits2_ge m d : 2 ^ (d - 1) ≤ m → 0 < m → d ≤ Zdigits2 m.
Proof.
  intros Hle Hm. rewrite Zdigits2_log2 by lia.
  destruct (Z.le_gt_cases 1 d) as [Hd|Hd].
  - enough (d - 1 ≤ Z.log2 m) by lia. apply Z.log2_le_pow2; [lia|done].
  - pose proof (Z.log2_nonneg m). lia.
Qed.

Lemma shr_1_div2 mrs : 0 ≤ shr_m mrs → shr_m (shr_1 mrs) = shr_m mrs / 2.
Proof.
  destruct mrs as [m r s]. cbn [shr_m]. intros Hm.
  destruct m as [|[p|p|]|p]; cbn [shr_1 shr_m]; try done.
  - apply Z.div_unique with 1; lia.
  - apply Z.div_unique with 0; lia.
Qed.

Lemma pow2_xO n : 2 ^ Z.pos n~0 = 2 ^ Z.pos n * 2 ^ Z.pos n.
Proof.
  replace (Z.pos n~0) with (Z.pos n + Z.pos n) by lia.
  by rewrite Z.pow_add_r.
Qed.

Lemma pow2_xI n : 2 ^ Z.pos n~1 = 2 * (2 ^ Z.pos n * 2 ^ Z.pos n).
Proof.
  replace (Z.pos n~1) with (1 + (Z.pos n + Z.pos n)) by lia.
  by rewrite !Z.pow_add_r.
Qed.

Lemma iter_shr_1_div n mrs :
  0 ≤ shr_m mrs → shr_m (SpecFloat.iter_pos shr_1 n mrs) = shr_m mrs / 2 ^ Z.pos n.
Proof.
  revert mrs. induction n as [n IH|n IH|]; intros mrs Hm; cbn [SpecFloat.iter_pos].
  - assert (H1 : 0 ≤ shr_m (shr_1 mrs)).
    { rewrite shr_1_div2 by done. by apply Z.div_pos. }
    assert (H2 : 0 ≤ shr_m (SpecFloat.iter_pos shr_1 n (shr_1 mrs))).
    { rewrite IH by done. apply Z.div_pos; [done|]. by apply Z.pow_pos_nonneg. }
    assert (Hp : 0 < 2 ^ Z.pos n) by (by apply Z.pow_pos_nonneg).
    rewrite IH, IH, shr_1_div2 by done.
    rewrite !Z.div_div by lia.
    by rewrite pow2_xI.
  - assert (H2 : 0 ≤ shr_m (SpecFloat.iter_pos shr_1 n mrs)).
    { rewrite IH by done. apply Z.div_pos; [done|]. by apply Z.pow_pos_nonneg. }
    assert (Hp : 0 < 2 ^ Z.pos n) by (by apply Z.pow_pos_nonneg).
    rewrite IH, IH by done.
    rewrite !Z.div_div by lia.
    by rewrite pow2_xO.
  - rewrite shr_1_div2 by done. done.
Qed.

Lemma shr_m_of_loc m l : shr_m (shr_record_of_loc m l) = m.
Proof. by destruct l as [|[]]. Qed.

(** Shifting to the exponent the format asks for: the mantissa is divided
    by the power of two, rounding down. *)
Lemma shr_fexp_spec m e l :
  0 ≤ m → e ≤ fexp prec emax (Zdigits2 m + e) →
  shr_m (fst (shr_fexp prec emax m e l)) = m / 2 ^ (fexp prec emax (Zdigits2 m + e) - e) ∧
  snd (shr_fexp prec emax m e l) = fexp prec emax (Zdigits2 m + e).
Proof.
  intros Hm Hn. unfold shr_fexp, shr.
  destruct (fexp prec emax (Zdigits2 m + e) - e) as [|n|n] eqn:En; simpl.
  - rewrite shr_m_of_loc, Z.div_1_r. lia.
  - rewrite iter_shr_1_div by (by rewrite shr_m_of_loc).
    rewrite shr_m_of_loc. split; [done|lia].
  - lia.
Qed.

Lemma round_nearest_even_bounds m l :
  m ≤ round_nearest_even m l ≤ m + 1.
Proof. destruct l as [|[]]; simpl; try destruct (Z.even m); lia. Qed.

Lemma fexp_eq x : fexp prec emax x = Z.max (x - 53) (-1074).
Proof. reflexivity. Qed.

Lemma Zdigits2_succ a :
  0 ≤ a →
  Zdigits2 (a + 1) = Zdigits2 a ∨
  (Zdigits2 (a + 1) = Zdigits2 a + 1 ∧ a + 1 = 2 ^ Zdigits2 a).
Proof.
  intros Ha. destruct (Z.eq_dec a 0) as [->|Hnz]; [by right|].
  pose proof (Zdigits2_bounds a ltac:(lia)) as [Hlo Hhi].
  destruct (Z.eq_dec (a + 1) (2 ^ Zdigits2 a)) as [Heq|Hne].
  - right. split; [|done]. apply Zdigits2_unique; [|lia].
    replace (Zdigits2 a + 1 - 1) with (Zdigits2 a) by lia.
    rewrite Z.pow_add_r by (pose proof (Zdigits2_nonneg a); lia). lia.
  - left. apply Zdigits2_unique; lia.
Qed.

(** The digits of a mantissa shifted right. *)
Lemma Zdigits2_div_pow2 m n :
  0 ≤ n → 0 < m / 2 ^ n → Zdigits2 (m / 2 ^ n) = Zdigits2 m - n.
Proof.
  intros Hn Hpos.
  assert (Hp : 0 < 2 ^ n) by (by apply Z.pow_pos_nonneg).
  assert (Hm : 0 < m).
  { destruct (Z.lt_trichotomy m 0) as [Hneg|[->|]]; [|by rewrite Z.div_0_l in Hpos; lia|done].
    pose proof (Z.div_lt_upper_bound m (2 ^ n) 0 Hp ltac:(lia)). lia. }
  rewrite !Zdigits2_log2 by done.
  rewrite <- Z.shiftr_div_pow2 by done.
  rewrite Z.log2_shiftr by done.
  destruct (Z.le_gt_cases n (Z.log2 m)) as [Hle|Hgt]; [lia|].
  assert (m < 2 ^ n).
  { apply Z.log2_lt_pow2; [done|lia]. }
  rewrite Z.div_small in Hpos by lia. lia.
Qed.

Lemma shr_fexp_zero e l : shr_m (fst (shr_fexp prec emax 0 e l)) = 0.
Proof.
  unfold shr_fexp, shr. destruct (_ - e) as [|n|n]; simpl fst.
  - apply shr_m_of_loc.
  - rewrite iter_shr_1_div by (by rewrite shr_m_of_loc).
    by rewrite shr_m_of_loc.
  - apply shr_m_of_loc.
Qed.

(** What [binary_round_aux] returns for a mantissa that has at least the
    digits of the format: the mantissa is shifted to the exponent of the
    format and rounded to one of its two neighbours there. *)
Lemma binary_round_aux_cases s m e l :
  0 ≤ m → e ≤ fexp prec emax (Zdigits2 m + e) →
  ∃ mr,
    m / 2 ^ (fexp prec emax (Zdigits2 m + e) - e) ≤ mr
      ≤ m / 2 ^ (fexp prec emax (Zdigits2 m + e) - e) + 1 ∧
    ((mr = 0 ∧ binary_round_aux prec emax s m e l = S754_zero s) ∨
     (∃ mf ef,
        (ef = fexp prec emax (Zdigits2 m + e) ∧ Z.pos mf = mr ∨
         ef = fexp prec emax (Zdigits2 m + e) + 1 ∧ 2 * Z.pos mf = mr) ∧
        canonical_mantissa prec emax mf ef = true ∧
        binary_round_aux prec emax s m e l
          = if ef <=? emax - prec then S754_finite s mf ef else S754_infinity s)).
Proof.
  intros Hm Hn. unfold binary_round_aux.
  destruct (shr_fexp_spec m e l Hm Hn) as [Hm1 He1].
  destruct (shr_fexp prec emax m e l) as [mrs' e']. simpl in Hm1, He1. subst e'.
  set (e1 := fexp prec emax (Zdigits2 m + e)) in *.
  set (m1 := m / 2 ^ (e1 - e)) in *.
  set (mr := round_nearest_even (shr_m mrs') (loc_of_shr_record mrs')).
  assert (Hmr : m1 ≤ mr ≤ m1 + 1).
  { unfold mr. rewrite <- Hm1. apply round_nearest_even_bounds. }
  assert (Hm1pos : 0 ≤ m1).
  { apply Z.div_pos; [done|]. apply Z.pow_pos_nonneg; lia. }
  exists mr. split; [done|].
  destruct (Z.eq_dec mr 0) as [Hz|Hnz].
  { left. split; [done|]. rewrite Hz.
    pose proof (shr_fexp_zero e1 loc_Exact) as H0.
    destruct (shr_fexp prec emax 0 e1 loc_Exact) as [mrs'' e'']. simpl in H0.
    by rewrite H0. }
  right.
  (* the first shift leaves a mantissa in the format's form *)
  assert (Hcan1 : fexp prec emax (Zdigits2 m1 + e1) = e1).
  { destruct (Z.eq_dec m1 0) as [H0|H0].
    - rewrite H0. simpl Zdigits2.
      assert (Hlt : m < 2 ^ (e1 - e)).
      { assert (Hp : 0 < 2 ^ (e1 - e)) by (apply Z.pow_pos_nonneg; lia).
        destruct (Z.lt_ge_cases m (2 ^ (e1 - e))) as [|Hge]; [done|].
        pose proof (Z.div_le_lower_bound m (2 ^ (e1 - e)) 1 Hp ltac:(lia)).
        fold m1 in H. lia. }
      pose proof (Zdigits2_le m (e1 - e) Hm ltac:(lia) Hlt) as Hd.
      pose proof (fexp_eq (Zdigits2 m + e)) as He1. fold e1 in He1.
      rewrite fexp_eq. lia.
    - unfold m1. rewrite Zdigits2_div_pow2 by (fold m1; lia).
      replace (Zdigits2 m - (e1 - e) + e1) with (Zdigits2 m + e) by lia. done. }
  assert (Hmr_pos : 0 < mr) by lia.
  assert (Hdig : Zdigits2 mr = Zdigits2 m1 ∨
                 (Zdigits2 mr = Zdigits2 m1 + 1 ∧ mr = 2 ^ Zdigits2 m1)).
  { destruct (Z.eq_dec mr m1) as [->|]; [by left|].
    replace mr with (m1 + 1) by lia. by apply Zdigits2_succ. }
  assert (Hn2 : e1 ≤ fexp prec emax (Zdigits2 mr + e1)).
  { rewrite fexp_eq in *. destruct Hdig as [->|[-> _]]; lia. }
  destruct (shr_fexp_spec mr e1 loc_Exact ltac:(lia) Hn2) as [Hm2 He2].
  destruct (shr_fexp prec emax mr e1 loc_Exact) as [mrs'' e'']. simpl in Hm2, He2.
  subst e''.
  destruct (Z.eq_dec (fexp prec emax (Zdigits2 mr + e1)) e1) as [Heq|Hne].
  - (* no second shift *)
    rewrite Heq, Z.sub_diag, Z.div_1_r in Hm2. rewrite Hm2, Heq.
    destruct mr as [|mf|mf]; [lia| |lia].
    exists mf, e1. split; [by left|]. split; [|done].
    unfold canonical_mantissa. apply Z.eqb_eq. exact Heq.
  - (* the rounding carried into a new digit *)
    destruct Hdig as [Hd|[Hd Hpow]]; [rewrite Hd in Hne; lia|].
    assert (H53 : Zdigits2 m1 = 53 ∧ fexp prec emax (Zdigits2 mr + e1) = e1 + 1).
    { rewrite fexp_eq in *. lia. }
    destruct H53 as [H53 Hf]. rewrite Hf in *.
    replace (e1 + 1 - e1) with 1 in Hm2 by lia.
    rewrite Hpow, H53 in Hm2. change (2 ^ 53 / 2 ^ 1) with (2 ^ 52) in Hm2.
    rewrite Hm2.
    exists (4503599627370496)%positive, (e1 + 1). split; [|split; [|done]].
    + right. split; [done|]. rewrite Hpow, H53. done.
    + unfold canonical_mantissa. apply Z.eqb_eq.
      change (Z.pos (digits2_pos 4503599627370496)) with 53.
      rewrite H53 in Hcan1. rewrite fexp_eq in *. lia.
Qed.

(** ** Binary64 rounding, on real numbers *)

Lemma bpow_pos e : (0 < bpow e)%R.
Proof. apply powerRZ_lt. lra. Qed.

Lemma bpow_add a b : bpow (a + b) = (bpow a * bpow b)%R.
Proof. apply powerRZ_add. lra. Qed.

Lemma bpow_IZR n : 0 ≤ n → IZR (2 ^ n) = bpow n.
Proof.
  intros Hn. unfold bpow. rewrite <- (Z2Nat.id n Hn) at 1.
  rewrite <- pow_IZR, pow_powerRZ. by rewrite Z2Nat.id.
Qed.

Lemma bpow_le a b : a ≤ b → (bpow a <= bpow b)%R.
Proof.
  intros H. replace b with (a + (b - a)) by lia. rewrite bpow_add.
  pose proof (bpow_pos a).
  assert (1 <= bpow (b - a))%R; [|nra].
  rewrite <- bpow_IZR by lia. apply IZR_le.
  assert (0 < 2 ^ (b - a)) by (apply Z.pow_pos_nonneg; lia). lia.
Qed.

Lemma bpow_opp_mul e : (bpow e * bpow (- e) = 1)%R.
Proof. rewrite <- bpow_add. replace (e + - e) with 0 by lia. done. Qed.

Lemma IZR_div_pow2 m n :
  0 ≤ m → 0 ≤ n →
  (IZR (m / 2 ^ n) * bpow n <= IZR m)%R ∧
  (IZR m + 1 <= (IZR (m / 2 ^ n) + 1) * bpow n)%R.
Proof.
  intros Hm Hn. rewrite <- bpow_IZR by done.
  assert (Hp : 0 < 2 ^ n) by (by apply Z.pow_pos_nonneg).
  pose proof (Z.div_mod m (2 ^ n) ltac:(lia)) as Hdm.
  pose proof (Z.mod_pos_bound m (2 ^ n) Hp) as Hr.
  split.
  - rewrite <- mult_IZR. apply IZR_le. lia.
  - rewrite <- !plus_IZR, <- mult_IZR. apply IZR_le. lia.
Qed.

Lemma binary_round_aux_real s m e l (v : R) :
  0 ≤ m → e ≤ fexp prec emax (Zdigits2 m + e) →
  (IZR m * bpow e <= v <= (IZR m + 1) * bpow e)%R →
  (binary_round_aux prec emax s m e l = S754_zero s ∧ (v <= ulp_bound v)%R) ∨
  (∃ mf ef,
     binary_round_aux prec emax s m e l = S754_finite s mf ef ∧
     bounded prec emax mf ef = true ∧
     (v - ulp_bound v <= IZR (Z.pos mf) * bpow ef <= v + ulp_bound v)%R) ∨
  (binary_round_aux prec emax s m e l = S754_infinity s ∧ (bpow 1023 <= v)%R).
Proof.
  intros Hm Hn Hv.
  destruct (binary_round_aux_cases s m e l Hm Hn) as (mr & Hmr & Hcases).
  set (e1 := fexp prec emax (Zdigits2 m + e)) in *.
  set (m1 := m / 2 ^ (e1 - e)) in *.
  assert (He1 : bpow e1 = (bpow (e1 - e) * bpow e)%R).
  { rewrite <- bpow_add. f_equal. lia. }
  destruct (IZR_div_pow2 m (e1 - e) Hm ltac:(lia)) as [Hlo Hhi]. fold m1 in Hlo, Hhi.
  pose proof (bpow_pos e) as Hpe. pose proof (bpow_pos e1) as Hpe1.
  pose proof (bpow_pos (e1 - e)) as Hpn.
  (* the value lies between the two neighbours at exponent [e1] *)
  assert (Hv1 : (IZR m1 * bpow e1 <= v <= (IZR m1 + 1) * bpow e1)%R).
  { rewrite He1. split.
    - apply Rle_trans with (IZR m * bpow e)%R; [|apply Hv].
      rewrite <- Rmult_assoc. apply Rmult_le_compat_r; [lra|done].
    - apply Rle_trans with ((IZR m + 1) * bpow e)%R; [apply Hv|].
      rewrite <- Rmult_assoc. apply Rmult_le_compat_r; [lra|done]. }
  assert (Hmr1 : (IZR m1 * bpow e1 <= IZR mr * bpow e1 <= (IZR m1 + 1) * bpow e1)%R).
  { rewrite <- (plus_IZR m1 1).
    split; (apply Rmult_le_compat_r; [lra|]); apply IZR_le; lia. }
  assert (Herr : (v - bpow e1 <= IZR mr * bpow e1 <= v + bpow e1)%R) by lra.
  (* a unit at exponent [e1] is within the bound *)
  assert (Hulp : (bpow e1 <= ulp_bound v)%R).
  { unfold ulp_bound. pose proof (fexp_eq (Zdigits2 m + e)) as Hf. fold e1 in Hf.
    destruct (Z.eq_dec e1 (-1074)) as [->|Hne]; [apply Rmax_r|].
    assert (He1' : e1 = Zdigits2 m + e - 53) by lia.
    assert (Hmpos : 0 < m).
    { destruct (Z.eq_dec m 0) as [->|]; [simpl in *; lia|lia]. }
    eapply Rle_trans; [|apply Rmax_l].
    replace e1 with ((Zdigits2 m - 1 + e) + -52) by lia.
    rewrite bpow_add. apply Rmult_le_compat_r; [pose proof (bpow_pos (-52)); lra|].
    apply Rle_trans with (IZR m * bpow e)%R; [|apply Hv].
    rewrite bpow_add. apply Rmult_le_compat_r; [lra|].
    pose proof (Zdigits2_bounds m Hmpos) as [Hd _].
    rewrite <- bpow_IZR.
    - by apply IZR_le.
    - pose proof (Zdigits2_log2 m Hmpos). pose proof (Z.log2_nonneg m). lia. }
  destruct Hcases as [[Hz ->] | (mf & ef & Hval & Hcan & ->)].
  { left. split; [done|]. rewrite Hz in Hmr1.
    apply Rle_trans with (bpow e1); [|done].
    rewrite Hz, Rmult_0_l in Herr. lra. }
  right.
  assert (Hvalue : (IZR (Z.pos mf) * bpow ef = IZR mr * bpow e1)%R).
  { destruct Hval as [[-> ->] | [-> <-]]; [done|].
    rewrite bpow_add, mult_IZR.
    replace (bpow 1) with 2%R by (unfold bpow; simpl; lra). lra. }
  destruct (ef <=? emax - prec) eqn:Hb.
  - left. exists mf, ef. split; [done|]. split.
    + unfold bounded. by rewrite Hcan, Hb.
    + rewrite Hvalue. lra.
  - right. split; [done|].
    apply Z.leb_gt in Hb. change (emax - prec) with 971 in Hb.
    unfold canonical_mantissa in Hcan. apply Z.eqb_eq in Hcan.
    rewrite fexp_eq in Hcan.
    assert (Hd : Z.pos (digits2_pos mf) = 53) by lia.
    pose proof (Zdigits2_bounds (Z.pos mf) ltac:(lia)) as [Hlo52 _].
    simpl Zdigits2 in Hlo52. rewrite Hd in Hlo52.
    change (2 ^ (53 - 1)) with 4503599627370496 in Hlo52.
    apply IZR_le in Hlo52.
    assert (Hef : (bpow 972 <= bpow ef)%R) by (apply bpow_le; lia).
    assert (He1ef : (bpow e1 <= bpow ef)%R).
    { apply bpow_le. destruct Hval as [[-> _] | [-> _]]; lia. }
    pose proof (bpow_pos ef) as Hpef.
    rewrite <- Hvalue in Herr.
    assert (H1023 : (bpow 1023 = 2251799813685248 * bpow 972)%R).
    { replace 1023 with (51 + 972) by lia. rewrite bpow_add.
      f_equal. rewrite <- bpow_IZR by lia. done. }
    rewrite H1023. nra.
Qed.

Lemma F2R_pos m e : (0 < F2R m e)%R.
Proof.
  unfold F2R. apply Rmult_lt_0_compat; [|apply bpow_pos].
  by apply IZR_lt.
Qed.

Lemma Zdigits2_mul m1 m2 :
  Zdigits2 (Z.pos m1) + Zdigits2 (Z.pos m2) - 1 ≤ Zdigits2 (Z.pos (m1 * m2)).
Proof.
  pose proof (Zdigits2_bounds (Z.pos m1) ltac:(lia)) as [H1 _].
  pose proof (Zdigits2_bounds (Z.pos m2) ltac:(lia)) as [H2 _].
  pose proof (Zdigits2_log2 (Z.pos m1) ltac:(lia)) as Hl1.
  pose proof (Zdigits2_log2 (Z.pos m2) ltac:(lia)) as Hl2.
  pose proof (Z.log2_nonneg (Z.pos m1)). pose proof (Z.log2_nonneg (Z.pos m2)).
  apply Zdigits2_ge; [|lia].
  replace (Zdigits2 (Z.pos m1) + Zdigits2 (Z.pos m2) - 1 - 1)
    with ((Zdigits2 (Z.pos m1) - 1) + (Zdigits2 (Z.pos m2) - 1)) by lia.
  rewrite Z.pow_add_r by lia. rewrite Pos2Z.inj_mul.
  apply Z.mul_le_mono_nonneg; try done; apply Z.pow_nonneg; lia.
Qed.

(** The product of two doubles is the rounded product of their values. *)
Lemma SFmul_real s1 m1 e1 s2 m2 e2 :
  bounded prec emax m1 e1 = true → bounded prec emax m2 e2 = true →
  rounds_to (xorb s1 s2) (F2R m1 e1 * F2R m2 e2)
    (SFmul prec emax (S754_finite s1 m1 e1) (S754_finite s2 m2 e2)).
Proof.
  intros [Hc1 _]%andb_prop [Hc2 _]%andb_prop.
  unfold canonical_mantissa in Hc1, Hc2. apply Z.eqb_eq in Hc1, Hc2.
  rewrite fexp_eq in Hc1, Hc2.
  cbn [SFmul].
  apply binary_round_aux_real.
  - lia.
  - pose proof (Zdigits2_mul m1 m2) as Hd. simpl Zdigits2 in Hd.
    rewrite fexp_eq. simpl Zdigits2. lia.
  - unfold F2R. rewrite Pos2Z.inj_mul, mult_IZR, bpow_add.
    pose proof (bpow_pos e1). pose proof (bpow_pos e2). split; [lra|].
    nra.
Qed.

Lemma SFdiv_core_binary_eq m1 e1 m2 e2 :
  let e' := Z.min (fexp prec emax (Zdigits2 (Z.pos m1) + e1 - (Zdigits2 (Z.pos m2) + e2)))
              (e1 - e2) in
  ∃ l, SFdiv_core_binary prec emax (Z.pos m1) e1 (Z.pos m2) e2
       = (Z.pos m1 * 2 ^ (e1 - e2 - e') / Z.pos m2, e', l).
Proof.
  intros e'. unfold SFdiv_core_binary. fold e'.
  assert (Hs : 0 ≤ e1 - e2 - e') by (unfold e'; lia).
  assert (Hm' : match e1 - e2 - e' with
                | Z.pos _ => Z.shiftl (Z.pos m1) (e1 - e2 - e')
                | 0 => Z.pos m1
                | Z.neg _ => 0
                end = Z.pos m1 * 2 ^ (e1 - e2 - e')).
  { destruct (e1 - e2 - e') as [|s|s] eqn:Es; [lia | | lia].
    by rewrite Z.shiftl_mul_pow2. }
  rewrite Hm'. unfold Z.div.
  destruct (Z.div_eucl _ _) as [q r]. by eexists.
Qed.

(** The quotient of two doubles, or of any two mantissas with their
    exponents, is the rounded quotient of their values. *)
Lemma SFdiv_real s1 m1 e1 s2 m2 e2 :
  rounds_to (xorb s1 s2) (F2R m1 e1 / F2R m2 e2)
    (SFdiv prec emax (S754_finite s1 m1 e1) (S754_finite s2 m2 e2)).
Proof.
  cbn [SFdiv].
  destruct (SFdiv_core_binary_eq m1 e1 m2 e2) as [l ->]. cbv zeta.
  set (d1 := Zdigits2 (Z.pos m1)). set (d2 := Zdigits2 (Z.pos m2)).
  set (e' := Z.min (fexp prec emax (d1 + e1 - (d2 + e2))) (e1 - e2)).
  set (s := e1 - e2 - e').
  assert (Hs : 0 ≤ s) by (unfold s, e'; lia).
  set (M := Z.pos m1 * 2 ^ s).
  assert (Hp : 0 < 2 ^ s) by (by apply Z.pow_pos_nonneg).
  assert (HM : 0 < M) by (unfold M; lia).
  set (q := M / Z.pos m2).
  assert (Hq : 0 ≤ q) by (apply Z.div_pos; lia).
  pose proof (Z.div_mod M (Z.pos m2) ltac:(lia)) as Hdm. fold q in Hdm.
  pose proof (Z.mod_pos_bound M (Z.pos m2) ltac:(lia)) as Hr.
  apply binary_round_aux_real; [done| |].
  - (* the quotient has the digits the format asks for *)
    assert (Hdq : d1 + s - d2 ≤ Zdigits2 q).
    { pose proof (Zdigits2_nonneg q).
      destruct (Z.le_gt_cases 0 (d1 - 1 + s - d2)) as [Hk|Hk]; [|lia].
      pose proof (Zdigits2_bounds (Z.pos m1) ltac:(lia)) as [H1 _]. fold d1 in H1.
      pose proof (Zdigits2_bounds (Z.pos m2) ltac:(lia)) as [_ H2]. fold d2 in H2.
      assert (Hd1 : 1 ≤ d1) by (unfold d1; simpl; lia).
      assert (Hd2 : 1 ≤ d2) by (unfold d2; simpl; lia).
      assert (Hlow : 2 ^ (d1 - 1 + s - d2) ≤ q).
      { apply Z.div_le_lower_bound; [lia|].
        apply Z.le_trans with (2 ^ d2 * 2 ^ (d1 - 1 + s - d2)).
        - apply Z.mul_le_mono_nonneg_r; [apply Z.pow_nonneg|]; lia.
        - rewrite <- Z.pow_add_r by lia.
          replace (d2 + (d1 - 1 + s - d2)) with ((d1 - 1) + s) by lia.
          rewrite Z.pow_add_r by lia. unfold M.
          apply Z.mul_le_mono_nonneg_r; lia. }
      assert (0 < 2 ^ (d1 - 1 + s - d2)) by (by apply Z.pow_pos_nonneg).
      apply Zdigits2_ge; [|lia].
      by replace (d1 + s - d2 - 1) with (d1 - 1 + s - d2) by lia. }
    assert (He' : e' ≤ fexp prec emax (d1 + e1 - (d2 + e2))) by (unfold e'; lia).
    rewrite fexp_eq in *. unfold s in Hdq. lia.
  - (* and it is the value, rounded down at its exponent *)
    assert (Hv : (F2R m1 e1 / F2R m2 e2 = IZR M * bpow e' / IZR (Z.pos m2))%R).
    { unfold F2R, M. rewrite mult_IZR, bpow_IZR by done.
      replace e1 with (s + e' + e2) at 1 by (unfold s; lia).
      rewrite !bpow_add.
      pose proof (bpow_pos e2). assert (0 < IZR (Z.pos m2))%R by (by apply IZR_lt).
      field. split; lra. }
    rewrite Hv.
    assert (HC : (0 < IZR (Z.pos m2))%R) by (by apply IZR_lt).
    pose proof (bpow_pos e') as HB.
    assert (Hlo : (IZR q * IZR (Z.pos m2) <= IZR M)%R).
    { rewrite <- mult_IZR. apply IZR_le. lia. }
    assert (Hhi : (IZR M <= (IZR q + 1) * IZR (Z.pos m2))%R).
    { rewrite <- plus_IZR, <- mult_IZR. apply IZR_le. lia. }
    split.
    + apply Rmult_le_reg_r with (IZR (Z.pos m2)); [done|].
      replace (IZR M * bpow e' / IZR (Z.pos m2) * IZR (Z.pos m2))%R
        with (IZR M * bpow e')%R by (field; lra).
      nra.
    + apply Rmult_le_reg_r with (IZR (Z.pos m2)); [done|].
      replace (IZR M * bpow e' / IZR (Z.pos m2) * IZR (Z.pos m2))%R
        with (IZR M * bpow e')%R by (field; lra).
      nra.
Qed.

Local Open Scope string_scope.
Lemma leb_not_nan (c x : float) : PrimFloat.leb c x = true → PrimFloat.is_nan x = false.
Proof.
  rewrite FloatAxioms.leb_spec. intros H. apply not_nan_spec. intros E.
  rewrite E in H. by destruct (Prim2SF c).
Qed.

Lemma mul_not_nan (x p : float) :
  PyFloat.isfinite p = true → PrimFloat.eqb p 0 = false →
  PrimFloat.is_nan x = false → PrimFloat.is_nan (x * p) = false.
Proof.
  intros Hf Hz Hx. destruct (finite_nonzero_spec p Hf Hz) as (s & m & e & Hp).
  apply not_nan_spec. rewrite mul_spec, Hp.
  by apply SFmul_finite_not_nan, not_nan_spec.
Qed.

Lemma div_not_nan (x p : float) :
  PyFloat.isfinite p = true → PrimFloat.eqb p 0 = false →
  PrimFloat.is_nan x = false → PrimFloat.is_nan (x / p) = false.
Proof.
  intros Hf Hz Hx. destruct (finite_nonzero_spec p Hf Hz) as (s & m & e & Hp).
  apply not_nan_spec. rewrite div_spec, Hp.
  by apply SFdiv_finite_not_nan, not_nan_spec.
Qed.

Lemma isfinite_not_nan (p : float) : PyFloat.isfinite p = true → PrimFloat.is_nan p = false.
Proof.
  unfold PyFloat.isfinite. intros Hf.
  by apply negb_true_iff, orb_false_iff in Hf as [? _].
Qed.

(** ** Purchases *)

(** An amount that passes [ge=1] is true as a condition. *)
Lemma ge_one_truthy (a : float) : PrimFloat.leb 1 a = true → PyFloat.truthy a = true.
Proof.
  unfold PyFloat.truthy. rewrite FloatAxioms.leb_spec, FloatAxioms.eqb_spec.
  destruct (Prim2SF a) as [s | s | | s m e]; vm_compute; try congruence.
  all: destruct s; congruence.
Qed.

Lemma valid_amount req a :
  PurchaseRequest.valid req = true → PurchaseRequest.amount_in_inr req = Some a →
  PrimFloat.leb 1 a = true.
Proof.
  unfold PurchaseRequest.valid. intros Hv Ha. rewrite Ha in Hv.
  by apply andb_true_iff in Hv as [? _].
Qed.

Lemma valid_grams req g :
  PurchaseRequest.valid req = true → PurchaseRequest.grams req = Some g →
  PrimFloat.leb 0.01 g = true.
Proof.
  unfold PurchaseRequest.valid. intros Hv Hg. rewrite Hg in Hv.
  by apply andb_true_iff in Hv as [_ ?].
Qed.

(** With a valid amount the grams come from the division, whatever the
    [grams] field holds. *)
Lemma purchase_grams_amount req a :
  PurchaseRequest.valid req = true →
  PurchaseRequest.amount_in_inr req = Some a →
  purchase_grams req =
    match PyFloat.div a get_effective_price_per_gram_inr with
    | Some g => inr g
    | None => inl ZeroDivisionError
    end.
Proof.
  intros Hv Ha. unfold purchase_grams. rewrite Ha.
  by rewrite (ge_one_truthy a (valid_amount req a Hv Ha)).
Qed.

Lemma purchase_grams_only_grams req g :
  PurchaseRequest.amount_in_inr req = None →
  PurchaseRequest.grams req = Some g →
  purchase_grams req = inr g.
Proof. intros Ha Hg. unfold purchase_grams. by rewrite Ha, Hg. Qed.

(** The grams of a valid request are a number when the price is finite and
    not zero, and so is everything the row stores. *)
Lemma purchase_grams_not_nan req g :
  PurchaseRequest.valid req = true →
  PyFloat.isfinite get_effective_price_per_gram_inr = true →
  PrimFloat.eqb get_effective_price_per_gram_inr 0 = false →
  purchase_grams req = inr g →
  PrimFloat.is_nan g = false.
Proof.
  intros Hv Hf Hz Hg.
  destruct (PurchaseRequest.amount_in_inr req) as [a|] eqn:Ha.
  - rewrite (purchase_grams_amount req a Hv Ha) in Hg. unfold PyFloat.div in Hg.
    rewrite Hz in Hg. injection Hg as <-.
    apply div_not_nan; [done..|]. eapply leb_not_nan, valid_amount; eauto.
  - unfold purchase_grams in Hg. rewrite Ha in Hg.
    destruct (PurchaseRequest.grams req) as [g'|] eqn:Hg'; [|done].
    injection Hg as <-. eapply leb_not_nan, valid_grams; eauto.
Qed.

Lemma purchase_receipt_not_null env db user g :
  PyFloat.isfinite get_effective_price_per_gram_inr = true →
  PrimFloat.eqb get_effective_price_per_gram_inr 0 = false →
  PrimFloat.is_nan g = false →
  ∃ receipt, purchase_receipt (purchase_entry env db user g) = inr receipt.
Proof.
  intros Hf Hz Hg. unfold purchase_receipt, purchase_entry, is_null. simpl.
  rewrite (round_not_nan _ 4 Hg).
  rewrite (round_not_nan _ 2 (mul_not_nan _ _ Hf Hz Hg)).
  rewrite (isfinite_not_nan _ Hf). simpl. eauto.
Qed.

(** The receipt shows the row. *)
Lemma purchase_receipt_inv entry receipt :
  purchase_receipt entry = inr receipt →
  receipt = PurchaseReceipt.mk true "Digital gold purchase successful (demo)."
              (Purchase.txn_id entry) (Purchase.user_id entry)
              (Purchase.grams entry) (Purchase.inr_amount entry)
              (Purchase.price_per_gram entry) (Purchase.provider entry)
              (Purchase.created_at entry) ∧
  is_null (Purchase.grams entry) = false ∧
  is_null (Purchase.inr_amount entry) = false ∧
  is_null (Purchase.price_per_gram entry) = false.
Proof.
  unfold purchase_receipt.
  destruct (is_null (Purchase.grams entry)), (is_null (Purchase.inr_amount entry)),
    (is_null (Purchase.price_per_gram entry)); simpl; try done.
  by intros [= <-].
Qed.

Lemma purchase_receipt_inl entry exc :
  purchase_receipt entry = inl exc → exc = ValidationError.
Proof. unfold purchase_receipt. destruct (_ || _); [by intros [= <-] | done]. Qed.

(** Resolving the user of a purchase leaves the purchases alone and keeps
    every user. *)
Lemma found_or_created_purchases env db user_id found :
  purchases (snd (found_or_created env db user_id found)) = purchases db.
Proof. by destruct found. Qed.

Lemma found_or_created_lookup env db user_id :
  users (snd (found_or_created env db user_id (get_user db user_id))) !! user_id
    = Some (fst (found_or_created env db user_id (get_user db user_id))).
Proof.
  unfold get_user. destruct (users db !! user_id) eqn:E; simpl; [done|].
  by rewrite lookup_insert_eq.
Qed.

Lemma purchase_user_binds env db req :
  binds (PurchaseRequest.user_id req) = true →
  purchase_user env db req
    = inr (found_or_created env db (PurchaseRequest.user_id req)
             (get_user db (PurchaseRequest.user_id req))).
Proof. intros H. unfold purchase_user. by rewrite (binds_user_get _ _ H). Qed.

Lemma purchase_user_not_binds env db req :
  binds (PurchaseRequest.user_id req) = false →
  purchase_user env db req = inl OverflowError.
Proof. intros H. unfold purchase_user. by rewrite (not_binds_user_get _ _ H). Qed.

(** Every way the handler can go, with the store it leaves. *)
Lemma purchase_cases env db req :
  (PurchaseRequest.amount_in_inr req = None ∧ PurchaseRequest.grams req = None ∧
   purchase env db req = (HTTPException 400 "Provide either amount_in_inr or grams", db)) ∨
  (¬ (PurchaseRequest.amount_in_inr req = None ∧ PurchaseRequest.grams req = None) ∧
   ((binds (PurchaseRequest.user_id req) = false ∧
     purchase env db req = (ServerError OverflowError, db)) ∨
    (binds (PurchaseRequest.user_id req) = true ∧
     ((∃ exc, purchase_grams req = inl exc ∧
              purchase env db req = (ServerError exc, snd (resolved env db req))) ∨
      (∃ g, purchase_grams req = inr g ∧
         let entry := purchase_entry env (snd (resolved env db req))
                        (fst (resolved env db req)) g in
         let db' := mkDB (users (snd (resolved env db req))) (purchases db ++ [entry]) in
         ((uuid4 env ∈ txn_ids db ∧
           purchase env db req = (ServerError IntegrityError, snd (resolved env db req))) ∨
          ((uuid4 env ∉ txn_ids db) ∧
           ((purchase_receipt entry = inl ValidationError ∧
             purchase env db req = (ServerError ValidationError, db')) ∨
            (∃ receipt, purchase_receipt entry = inr receipt ∧
                        purchase env db req = (OK receipt, db')))))))))).
Proof.
  unfold purchase.
  destruct (PurchaseRequest.amount_in_inr req) as [a|] eqn:Ha,
           (PurchaseRequest.grams req) as [g0|] eqn:Hg0;
    [right; split; [by intros [? ?]|] .. | by left].
  all: destruct (binds (PurchaseRequest.user_id req)) eqn:Hb;
    [ right; split; [done|]; rewrite (purchase_user_binds env db req Hb)
    | left; split; [done|]; by rewrite (purchase_user_not_binds env db req Hb) ].
  all: fold (resolved env db req);
    pose proof (found_or_created_purchases env db (PurchaseRequest.user_id req)
                  (get_user db (PurchaseRequest.user_id req))) as Hp;
    fold (resolved env db req) in Hp;
    destruct (resolved env db req) as [user db1]; simpl in *;
    (destruct (purchase_grams req) as [exc|g]; [left; by eauto|]);
    right; exists g; split; [done|];
    unfold add_purchase, txn_ids; rewrite Hp; simpl;
    (destruct (decide _) as [Hin|Hfresh]; [left; by split|]);
    right; split; [done|];
    (destruct (purchase_receipt _) as [exc|receipt] eqn:Hr;
      [left; apply purchase_receipt_inl in Hr as ->; by split | right; by eauto]).
Qed.

Lemma purchase_OK_inv env db req receipt db' :
  purchase env db req = (OK receipt, db') →
  binds (PurchaseRequest.user_id req) = true ∧
  ∃ g,
    purchase_grams req = inr g ∧
    (uuid4 env ∉ txn_ids db) ∧
    purchase_receipt (purchase_entry env (snd (resolved env db req))
                        (fst (resolved env db req)) g) = inr receipt ∧
    db' = mkDB (users (snd (resolved env db req)))
            (purchases db ++ [purchase_entry env (snd (resolved env db req))
                                (fst (resolved env db req)) g]).
Proof.
  intros H.
  destruct (purchase_cases env db req)
    as [(_ & _ & E) | (_ & [[_ E] | (Hb & [(exc & _ & E) | (g & Hg & [[_ E] | (Hf & [[_ E] | (r & Hr & E)])])])])];
    rewrite E in H; try done.
  injection H as <- <-. eauto 6.
Qed.

Lemma purchase_succeeds env db req g receipt :
  ¬ (PurchaseRequest.amount_in_inr req = None ∧ PurchaseRequest.grams req = None) →
  binds (PurchaseRequest.user_id req) = true →
  purchase_grams req = inr g →
  uuid4 env ∉ txn_ids db →
  purchase_receipt (purchase_entry env (snd (resolved env db req))
                      (fst (resolved env db req)) g) = inr receipt →
  purchase env db req
    = (OK receipt,
       mkDB (users (snd (resolved env db req)))
         (purchases db ++ [purchase_entry env (snd (resolved env db req))
                             (fst (resolved env db req)) g])).
Proof.
  intros Hsome Hb Hg Hfresh Hr.
  destruct (purchase_cases env db req)
    as [(Ha & Hg0 & _) | (_ & [[Hnb _] | (_ & [(exc & Hexc & _) | (g' & Hg' & Hrest)])])];
    [by destruct Hsome | congruence | congruence |].
  rewrite Hg in Hg'. injection Hg' as <-.
  destruct Hrest as [[Hin _] | (_ & [[Hnull _] | (r & Hr' & E)])];
    [done | congruence |].
  rewrite Hr in Hr'. by injection Hr' as <-.
Qed.

(** The only [HTTPException] is the one of the first two lines. *)
Lemma purchase_HTTPException env db req code detail :
  fst (purchase env db req) = HTTPException code detail ↔
  PurchaseRequest.amount_in_inr req = None ∧ PurchaseRequest.grams req = None ∧
  code = 400 ∧ detail = "Provide either amount_in_inr or grams".
Proof.
  destruct (purchase_cases env db req)
    as [(Ha & Hg & E) | (Hsome & [[_ E] | (Hb & [(exc & _ & E) | (g & Hg & [[_ E] | (Hf & [[_ E] | (r & Hr & E)])])])])];
    rewrite E; simpl.
  - split; [by intros [= <- <-] | by intros (_ & _ & -> & ->)].
  - split; [done | by intros (? & ? & _); destruct Hsome].
  - split; [done | by intros (? & ? & _); destruct Hsome].
  - split; [done | by intros (? & ? & _); destruct Hsome].
  - split; [done | by intros (? & ? & _); destruct Hsome].
  - split; [done | by intros (? & ? & _); destruct Hsome].
Qed.

Lemma post_purchase_OK_valid env db req receipt db' :
  post_purchase env db req = (OK receipt, db') →
  PurchaseRequest.valid req = true ∧ purchase env db req = (OK receipt, db').
Proof. unfold post_purchase. by destruct (PurchaseRequest.valid req). Qed.

(** A valid request with a field, for a user the store can look up, at a
    finite non-zero price and with a fresh transaction id, gets its
    receipt. *)
Lemma post_purchase_receipt env db req :
  PurchaseRequest.valid req = true →
  ¬ (PurchaseRequest.amount_in_inr req = None ∧ PurchaseRequest.grams req = None) →
  binds (PurchaseRequest.user_id req) = true →
  PyFloat.isfinite get_effective_price_per_gram_inr = true →
  PrimFloat.eqb get_effective_price_per_gram_inr 0 = false →
  uuid4 env ∉ txn_ids db →
  ∃ g receipt,
    purchase_grams req = inr g ∧
    purchase_receipt (purchase_entry env (snd (resolved env db req))
                        (fst (resolved env db req)) g) = inr receipt ∧
    post_purchase env db req
      = (OK receipt,
         mkDB (users (snd (resolved env db req)))
           (purchases db ++ [purchase_entry env (snd (resolved env db req))
                               (fst (resolved env db req)) g])).
Proof.
  intros Hv Hsome Hb Hf Hz Hfresh.
  assert (Hg : ∃ g, purchase_grams req = inr g).
  { destruct (PurchaseRequest.amount_in_inr req) as [a|] eqn:Ha.
    - rewrite (purchase_grams_amount req a Hv Ha). unfold PyFloat.div.
      rewrite Hz. eauto.
    - destruct (PurchaseRequest.grams req) as [g|] eqn:Hg; [|by destruct Hsome].
      exists g. by apply purchase_grams_only_grams. }
  destruct Hg as [g Hg].
  destruct (purchase_receipt_not_null env (snd (resolved env db req))
              (fst (resolved env db req)) g Hf Hz
              (purchase_grams_not_nan req g Hv Hf Hz Hg)) as [receipt Hr].
  exists g, receipt. split; [done|]. split; [done|].
  unfold post_purchase. rewrite Hv. by apply purchase_succeeds.
Qed.

(** C1, as the code has it: the amount of an accepted purchase is
    [round(g * price_per_gram, 2)] for the quantity [g] before rounding
    ([amount_in_inr / price_per_gram] when an amount is given, else the
    [grams] of the request), not for the stored [round(g, 4)]; receipt and
    stored row agree, and the status is SUCCESS. *)
Theorem purchase_amounts_from_unrounded_grams env db req receipt db' :
  post_purchase env db req = (OK receipt, db') →
  ∃ g row,
    match PurchaseRequest.amount_in_inr req with
    | Some a => PyFloat.div a get_effective_price_per_gram_inr = Some g
    | None => PurchaseRequest.grams req = Some g
    end ∧
    PurchaseReceipt.grams receipt = PyFloat.round g 4 ∧
    PurchaseReceipt.inr_amount receipt
      = PyFloat.round (g * get_effective_price_per_gram_inr)%float 2 ∧
    PurchaseReceipt.price_per_gram receipt = get_effective_price_per_gram_inr ∧
    purchases db' = (purchases db ++ [row])%list ∧
    Purchase.grams row = PurchaseReceipt.grams receipt ∧
    Purchase.inr_amount row = PurchaseReceipt.inr_amount receipt ∧
    Purchase.price_per_gram row = PurchaseReceipt.price_per_gram receipt ∧
    Purchase.status row = "SUCCESS".
Proof.
  intros [Hv H]%post_purchase_OK_valid.
  destruct (purchase_OK_inv _ _ _ _ _ H) as (_ & g & Hg & _ & Hr & ->).
  apply purchase_receipt_inv in Hr as (-> & _).
  exists g. eexists. repeat split; simpl.
  destruct (PurchaseRequest.amount_in_inr req) as [a|] eqn:Ha.
  - rewrite (purchase_grams_amount req a Hv Ha) in Hg.
    destruct (PyFloat.div _ _); congruence.
  - unfold purchase_grams in Hg. rewrite Ha in Hg.
    destruct (PurchaseRequest.grams req); congruence.
Qed.


(** C10, as the code has it: with both fields given, [amount_in_inr]
    decides: the answer is the one for the same request without [grams];
    it is a receipt for [amount_in_inr / price_per_gram] grams when the
    [user_id] fits the store's integers, the price is finite and not zero,
    and the transaction id is fresh. *)
Theorem purchase_amount_takes_precedence env db req a g0 :
  PurchaseRequest.valid req = true →
  PurchaseRequest.amount_in_inr req = Some a →
  PurchaseRequest.grams req = Some g0 →
  post_purchase env db req
    = post_purchase env db (PurchaseRequest.mk (PurchaseRequest.user_id req) (Some a) None) ∧
  (binds (PurchaseRequest.user_id req) = true →
   PyFloat.isfinite get_effective_price_per_gram_inr = true →
   PrimFloat.eqb get_effective_price_per_gram_inr 0 = false →
   uuid4 env ∉ txn_ids db →
   ∃ receipt db',
     post_purchase env db req = (OK receipt, db') ∧
     PurchaseReceipt.grams receipt
       = PyFloat.round (a / get_effective_price_per_gram_inr)%float 4 ∧
     PurchaseReceipt.inr_amount receipt
       = PyFloat.round (a / get_effective_price_per_gram_inr
                        * get_effective_price_per_gram_inr)%float 2).
Proof.
  intros Hv Ha Hg. pose proof (valid_amount req a Hv Ha) as Hge.
  assert (Hv' : PurchaseRequest.valid
                  (PurchaseRequest.mk (PurchaseRequest.user_id req) (Some a) None) = true).
  { unfold PurchaseRequest.valid. simpl. by rewrite Hge. }
  split.
  - unfold post_purchase. rewrite Hv, Hv'. unfold purchase.
    rewrite (purchase_grams_amount req a Hv Ha).
    rewrite (purchase_grams_amount _ a Hv' eq_refl).
    rewrite Ha. unfold purchase_user. simpl. reflexivity.
  - intros Hb Hf Hz Hfresh.
    destruct (post_purchase_receipt env db req Hv ltac:(by rewrite Ha; intros [? _])
                Hb Hf Hz Hfresh) as (g & receipt & Hgr & Hr & H).
    rewrite (purchase_grams_amount req a Hv Ha) in Hgr. unfold PyFloat.div in Hgr.
    rewrite Hz in Hgr. injection Hgr as <-.
    apply purchase_receipt_inv in Hr as (-> & _). eauto.
Qed.

(** C2, as the code has it: a request that gives both fields is never
    rejected by the handler or the schema; it is carried out from
    [amount_in_inr] and a row is stored, when the [user_id] fits the
    store's integers, the price is finite and not zero, and the
    transaction id is fresh. *)
Theorem purchase_accepts_both_fields env db req a g0 :
  PurchaseRequest.valid req = true →
  PurchaseRequest.amount_in_inr req = Some a →
  PurchaseRequest.grams req = Some g0 →
  (∀ code detail, fst (post_purchase env db req) ≠ HTTPException code detail) ∧
  fst (post_purchase env db req) ≠ RequestValidationError ∧
  (binds (PurchaseRequest.user_id req) = true →
   PyFloat.isfinite get_effective_price_per_gram_inr = true →
   PrimFloat.eqb get_effective_price_per_gram_inr 0 = false →
   uuid4 env ∉ txn_ids db →
   ∃ receipt db' row,
     post_purchase env db req = (OK receipt, db') ∧
     purchases db' = (purchases db ++ [row])%list ∧
     Purchase.txn_id row = PurchaseReceipt.txn_id receipt ∧
     Purchase.grams row = PyFloat.round (a / get_effective_price_per_gram_inr)%float 4).
Proof.
  intros Hv Ha Hg. split; [|split].
  - intros code detail H. unfold post_purchase in H. rewrite Hv in H.
    apply purchase_HTTPException in H as (Ha' & _). congruence.
  - unfold post_purchase. rewrite Hv.
    destruct (purchase_cases env db req)
      as [(_ & _ & E) | (_ & [[_ E] | (_ & [(exc & _ & E) | (g & _ & [[_ E] | (_ & [[_ E] | (r & _ & E)])])])])];
      by rewrite E.
  - intros Hb Hf Hz Hfresh.
    destruct (post_purchase_receipt env db req Hv ltac:(by rewrite Ha; intros [? _])
                Hb Hf Hz Hfresh) as (g & receipt & Hgr & Hr & H).
    rewrite (purchase_grams_amount req a Hv Ha) in Hgr. unfold PyFloat.div in Hgr.
    rewrite Hz in Hgr. injection Hgr as <-.
    apply purchase_receipt_inv in Hr as (-> & _).
    eexists _, _, _. split; [exact H|]. done.
Qed.

Local Open Scope Z_scope.

(** ** The round trip from grams to rupees and back *)

Lemma bpow_neg n : 0 ≤ n → bpow (- n) = (/ IZR (2 ^ n))%R.
Proof.
  intros Hn. rewrite bpow_IZR by done.
  pose proof (bpow_opp_mul n) as H. pose proof (bpow_pos n) as Hp.
  apply Rmult_eq_reg_l with (bpow n); [|lra].
  rewrite H. field. lra.
Qed.

Lemma bpow_52 : bpow (-52) = (/ 4503599627370496)%R.
Proof. apply (bpow_neg 52). lia. Qed.

Lemma bpow_1074 : (0 < bpow (-1074) <= / 18446744073709551616)%R.
Proof.
  split; [apply bpow_pos|].
  apply Rle_trans with (bpow (-64)); [apply bpow_le; lia|].
  apply Req_le. apply (bpow_neg 64). lia.
Qed.

Lemma ulp_bound_le v :
  (0 <= v)%R →
  (0 < ulp_bound v <= v / 4503599627370496 + / 18446744073709551616)%R.
Proof.
  intros Hv. pose proof bpow_1074 as Heta.
  unfold ulp_bound, Rmax. rewrite bpow_52. destruct (Rle_dec _ _); split; lra.
Qed.

(** A rounding that stays in range gives a valid double, zero or
    positive, within a unit in the last place of the value. *)
Lemma rounds_to_real v x :
  (0 <= v < bpow 1023)%R → rounds_to false v x →
  valid_binary x = true ∧
  (x = S754_zero false ∨ ∃ m e, x = S754_finite false m e) ∧
  (v - ulp_bound v <= SF2R x <= v + ulp_bound v)%R.
Proof.
  intros Hv [[-> Hz] | [(mf & ef & -> & Hb & Herr) | [_ Hinf]]].
  - split; [done|]. split; [by left|]. simpl.
    pose proof (ulp_bound_le v ltac:(lra)). lra.
  - split; [done|]. split; [by eauto|]. done.
  - lra.
Qed.

(** The order of two positive doubles is the order of their values. *)
Lemma SFleb_real m1 e1 m2 e2 :
  bounded prec emax m1 e1 = true → bounded prec emax m2 e2 = true →
  SFleb (S754_finite false m1 e1) (S754_finite false m2 e2) = true →
  (F2R m1 e1 <= F2R m2 e2)%R.
Proof.
  intros [Hc1 _]%andb_prop [Hc2 _]%andb_prop.
  unfold canonical_mantissa in Hc1, Hc2. apply Z.eqb_eq in Hc1, Hc2.
  rewrite fexp_eq in Hc1, Hc2.
  unfold SFleb, SFcompare, F2R.
  pose proof (bpow_pos e1) as Hp1. pose proof (bpow_pos e2) as Hp2.
  destruct (Z.compare_spec e1 e2) as [->|Hlt|Hgt]; [| |done].
  - change (Pos.compare_cont Eq m1 m2) with (m1 ?= m2)%positive.
    destruct (Pos.compare_spec m1 m2) as [->|Hm|Hm]; [lra| |done].
    intros _. apply Rmult_le_compat_r; [lra|]. apply IZR_le. lia.
  - intros _.
    pose proof (Zdigits2_bounds (Z.pos m1) ltac:(lia)) as [_ H1].
    pose proof (Zdigits2_bounds (Z.pos m2) ltac:(lia)) as [H2 _].
    simpl Zdigits2 in H1, H2.
    assert (Hd2 : Z.pos (digits2_pos m2) = 53) by lia.
    rewrite Hd2 in H2. change (2 ^ (53 - 1)) with (2 ^ 52) in H2.
    assert (H1' : Z.pos m1 ≤ 2 ^ 53).
    { apply Z.le_trans with (2 ^ Z.pos (digits2_pos m1)); [lia|].
      apply Z.pow_le_mono_r; lia. }
    apply IZR_le in H1', H2. rewrite bpow_IZR in H1', H2 by lia.
    apply Rle_trans with (bpow 53 * bpow e1)%R.
    { apply Rmult_le_compat_r; lra. }
    apply Rle_trans with (bpow 52 * bpow e2)%R.
    { rewrite <- !bpow_add. apply bpow_le. lia. }
    apply Rmult_le_compat_r; lra.
Qed.

(** A double with a mantissa is finite and not zero. *)
Lemma finite_spec (x : float) s m e :
  Prim2SF x = S754_finite s m e →
  PyFloat.isfinite x = true ∧ PrimFloat.eqb x 0 = false.
Proof.
  intros E. split.
  - unfold PyFloat.isfinite. apply negb_true_iff, orb_false_iff. split.
    + apply not_nan_spec. by rewrite E.
    + unfold PrimFloat.is_infinity. rewrite FloatAxioms.eqb_spec, abs_spec, E.
      done.
  - rewrite FloatAxioms.eqb_spec, E. by destruct s.
Qed.

Lemma zero_spec (x : float) s : Prim2SF x = S754_zero s → PyFloat.isfinite x = true.
Proof.
  intros E. unfold PyFloat.isfinite. apply negb_true_iff, orb_false_iff. split.
  - apply not_nan_spec. by rewrite E.
  - unfold PrimFloat.is_infinity. rewrite FloatAxioms.eqb_spec, abs_spec, E. done.
Qed.

(** *** Rounding to four decimals *)

Lemma round_half_even_bounds num den :
  0 ≤ num → 0 < den →
  0 ≤ PyFloat.round_half_even num den ∧
  2 * num - den ≤ 2 * (den * PyFloat.round_half_even num den) ≤ 2 * num + den.
Proof.
  intros Hnum Hden. unfold PyFloat.round_half_even.
  pose proof (Z.div_mod num den ltac:(lia)) as Hdm.
  pose proof (Z.mod_pos_bound num den Hden) as Hr.
  pose proof (Z.div_pos num den Hnum Hden) as Hq.
  destruct (Z.compare_spec (2 * (num mod den)) den) as [He|Hl|Hg];
    try destruct (Z.even _); split; lia.
Qed.

(** The numerator of the decimal is the value times 10^4, to within a
    half. *)
Lemma scaled_numerator_real m e :
  0 ≤ PyFloat.scaled_numerator m e 4 ∧
  (F2R m e * 10000 - / 2 <= IZR (PyFloat.scaled_numerator m e 4)
     <= F2R m e * 10000 + / 2)%R.
Proof.
  unfold PyFloat.scaled_numerator, F2R. change (10 ^ Z.of_N 4) with 10000.
  destruct (Z.leb_spec 0 e) as [He|He].
  - split.
    + assert (0 < 2 ^ e) by (by apply Z.pow_pos_nonneg). lia.
    + rewrite !mult_IZR, bpow_IZR by done. lra.
  - assert (Hden : 0 < 2 ^ (- e)) by (apply Z.pow_pos_nonneg; lia).
    destruct (round_half_even_bounds (Z.pos m * 10000) (2 ^ (- e)) ltac:(lia) Hden)
      as [Hq Hb].
    split; [done|].
    set (q := PyFloat.round_half_even _ _) in *.
    destruct Hb as [Hlo Hhi]. apply IZR_le in Hlo, Hhi.
    rewrite minus_IZR, !mult_IZR in Hlo. rewrite plus_IZR, !mult_IZR in Hhi.
    assert (Hbe : bpow e = (/ IZR (2 ^ (- e)))%R).
    { rewrite <- (bpow_neg (- e)) by lia. f_equal. lia. }
    rewrite Hbe.
    apply IZR_lt in Hden.
    set (D := IZR (2 ^ (- e))) in *.
    split.
    + apply Rmult_le_reg_r with (2 * D)%R; [lra|].
      replace ((IZR (Z.pos m) * / D * 10000 - / 2) * (2 * D))%R
        with (2 * (IZR (Z.pos m) * 10000) - D)%R by (field; lra).
      lra.
    + apply Rmult_le_reg_r with (2 * D)%R; [lra|].
      replace ((IZR (Z.pos m) * / D * 10000 + / 2) * (2 * D))%R
        with (2 * (IZR (Z.pos m) * 10000) + D)%R by (field; lra).
      lra.
Qed.

(** [round(x, 4)] of a double that is zero or positive: a finite double
    again; some decimal [d] within 0.00005 of [x], read back as a double
    within a unit in the last place of [d]. *)
Lemma round_4_real (x : float) :
  (Prim2SF x = S754_zero false ∨ ∃ m e, Prim2SF x = S754_finite false m e) →
  (real_of_float x <= 68719476736)%R →
  PyFloat.isfinite (PyFloat.round x 4) = true ∧
  ∃ d : R,
    (0 <= d)%R ∧
    (real_of_float x - / 20000 <= d <= real_of_float x + / 20000)%R ∧
    (d - (d / 4503599627370496 + / 18446744073709551616)
       <= real_of_float (PyFloat.round x 4)
       <= d + (d / 4503599627370496 + / 18446744073709551616))%R.
Proof.
  unfold real_of_float, PyFloat.round.
  intros [E | (m & e & E)] Hx; rewrite E in *.
  { split; [by apply (zero_spec x false)|].
    exists 0%R. rewrite E. simpl. lra. }
  change (SF2R (S754_finite false m e)) with (F2R m e) in *.
  destruct (scaled_numerator_real m e) as [Hq Hqr].
  cbv beta iota. change (10 ^ Z.of_N 4) with 10000.
  destruct (PyFloat.scaled_numerator m e 4) as [|q|q] eqn:Eq; [| |lia]; cbv beta iota.
  - split; [done|].
    exists 0%R. rewrite Prim2SF_SF2Prim by done. simpl. lra.
  - assert (Hd : (0 < IZR (Z.pos q))%R) by (by apply IZR_lt).
    pose proof (SFdiv_real false q 0 false 10000 0) as Hr. simpl xorb in Hr.
    assert (Hv : (F2R q 0 / F2R 10000 0 = IZR (Z.pos q) / 10000)%R).
    { unfold F2R. change (bpow 0) with 1%R. lra. }
    rewrite Hv in Hr.
    assert (H1023 : (68719476736 + 1 < bpow 1023)%R).
    { apply Rlt_le_trans with (bpow 37).
      - rewrite <- bpow_IZR by lia. change (2 ^ 37) with 137438953472. lra.
      - apply bpow_le. lia. }
    assert (Hrange : (0 <= IZR (Z.pos q) / 10000 < bpow 1023)%R) by lra.
    destruct (rounds_to_real _ _ Hrange Hr) as (Hvalid & Hshape & Herr).
    pose proof (Prim2SF_SF2Prim _ Hvalid) as Hback.
    split.
    + destruct Hshape as [Ez | (mf & ef & Ef)].
      * rewrite Ez in *. by apply (zero_spec _ false).
      * rewrite Ef in *. by apply (finite_spec _ false mf ef).
    + exists (IZR (Z.pos q) / 10000)%R.
      split; [lra|]. split; [lra|].
      rewrite Hback.
      pose proof (ulp_bound_le (IZR (Z.pos q) / 10000) ltac:(lra)). lra.
Qed.

(** *** The product, the quotient and the decimal *)

Lemma positive_spec (g : float) :
  PrimFloat.ltb 0 g = true →
  Prim2SF g = S754_infinity false ∨ ∃ m e, Prim2SF g = S754_finite false m e.
Proof.
  rewrite FloatAxioms.ltb_spec. change (Prim2SF 0) with (S754_zero false).
  destruct (Prim2SF g) as [s|[]| |[] m e]; try done; by eauto.
Qed.

Lemma F2R_one : F2R 4503599627370496 (-52) = 1%R.
Proof. unfold F2R. rewrite bpow_52. field. Qed.

Lemma F2R_1e10 : F2R 5242880000000000 (-19) = 10000000000%R.
Proof.
  unfold F2R. replace (bpow (-19)) with (/ 524288)%R; [field|].
  symmetry. apply (bpow_neg 19). lia.
Qed.

(** Grams to rupees and back: [round(g * p / p, 4)] is a finite double
    within 0.0001 of [g], for [0 < g <= 10^10] and a finite amount
    [g * p >= 1]. *)
Lemma round_trip_real (g p : float) :
  PrimFloat.ltb 0 g = true → PrimFloat.leb g 10000000000 = true →
  PrimFloat.leb 1 (g * p) = true → PyFloat.isfinite (g * p) = true →
  PyFloat.isfinite p = true ∧ PrimFloat.eqb p 0 = false ∧
  PyFloat.isfinite (PyFloat.round (g * p / p) 4) = true ∧
  (Rabs (real_of_float (PyFloat.round (g * p / p) 4) - real_of_float g)
     < / 10000)%R.
Proof.
  intros Hpos Hmax Hone Hfin.
  pose proof bpow_1074 as Heta.
  (* the grams *)
  assert (Hg : ∃ mg eg, Prim2SF g = S754_finite false mg eg).
  { destruct (positive_spec g Hpos) as [E|E]; [|done].
    rewrite FloatAxioms.leb_spec, E in Hmax. done. }
  destruct Hg as (mg & eg & Eg).
  pose proof (Prim2SF_valid g) as Hvg. rewrite Eg in Hvg.
  assert (HG : (0 < F2R mg eg <= 10000000000)%R).
  { split; [apply F2R_pos|]. rewrite <- F2R_1e10.
    rewrite FloatAxioms.leb_spec, Eg in Hmax.
    change (Prim2SF 10000000000) with (S754_finite false 5242880000000000 (-19)) in Hmax.
    by apply SFleb_real. }
  (* the amount *)
  destruct (finite_nonzero_spec (g * p) Hfin) as (sa & ma & ea & Ea).
  { pose proof (ge_one_truthy _ Hone) as Ht. unfold PyFloat.truthy in Ht.
    by apply negb_true_iff in Ht. }
  pose proof (Prim2SF_valid (g * p)) as Hva. rewrite Ea in Hva.
  rewrite FloatAxioms.leb_spec, Ea in Hone.
  change (Prim2SF 1) with (S754_finite false 4503599627370496 (-52)) in Hone.
  destruct sa; [done|].
  assert (HA : (1 <= F2R ma ea)%R).
  { rewrite <- F2R_one. by apply SFleb_real. }
  (* the price *)
  pose proof (mul_spec g p) as Hmul. rewrite Ea, Eg in Hmul.
  destruct (Prim2SF p) as [sp|sp| |sp mp ep] eqn:Ep; try done.
  pose proof (Prim2SF_valid p) as Hvp. rewrite Ep in Hvp.
  pose proof (SFmul_real false mg eg sp mp ep Hvg Hvp) as Hra.
  unfold SF64mul in Hmul. rewrite <- Hmul in Hra.
  destruct Hra as [[? _] | [(mf & ef & [= <- <- <-] & _ & Herra) | [? _]]]; try done.
  split; [by apply (finite_spec p _ _ _ Ep)|].
  split; [by apply (finite_spec p _ _ _ Ep)|].
  (* in real numbers *)
  set (G := F2R mg eg) in *. set (P := F2R mp ep) in *. set (A := F2R ma ea) in *.
  assert (HP : (0 < P)%R) by apply F2R_pos.
  assert (HGP : (0 < G * P)%R) by (apply Rmult_lt_0_compat; lra).
  pose proof (ulp_bound_le (G * P) ltac:(lra)) as Hu.
  assert (Hhalf : (/ 2 <= G * P)%R) by lra.
  assert (Hulp : (ulp_bound (G * P) = G * P / 4503599627370496)%R).
  { unfold ulp_bound. rewrite bpow_52. apply Rmax_left. lra. }
  rewrite Hulp in Herra.
  set (T := (A / P)%R).
  assert (HTP : (T * P = A)%R) by (unfold T; field; lra).
  assert (HT : (G - G / 4503599627370496 <= T <= G + G / 4503599627370496)%R).
  { split; apply Rmult_le_reg_r with P; try done; rewrite HTP; lra. }
  (* the quotient *)
  pose proof (div_spec (g * p) p) as Hdiv. rewrite Ea, Ep in Hdiv.
  pose proof (SFdiv_real false ma ea false mp ep) as Hrx.
  unfold SF64div in Hdiv. rewrite <- Hdiv in Hrx. simpl xorb in Hrx.
  fold A P T in Hrx.
  assert (H1023 : (68719476736 <= bpow 1023)%R).
  { apply Rle_trans with (bpow 36); [|apply bpow_le; lia].
    rewrite <- bpow_IZR by lia. change (2 ^ 36) with 68719476736. lra. }
  destruct (rounds_to_real T _ ltac:(lra) Hrx) as (_ & Hshape & Herrx).
  pose proof (ulp_bound_le T ltac:(lra)) as HuT.
  fold (real_of_float (g * p / p)) in Herrx.
  (* the decimal *)
  destruct (round_4_real (g * p / p) Hshape ltac:(lra)) as (Hyf & d & Hd0 & Hd & Hy).
  split; [done|].
  unfold real_of_float at 2. rewrite Eg. simpl SF2R. fold G.
  apply Rabs_def1; lra.
Qed.

(** C6, as the code has it: for a gram quantity [g] with [0 < g <= 10^10]
    whose amount [g * price_per_gram] is finite and at least 1, a purchase
    of that amount (by a user whose identifier fits the store's integers,
    with a fresh transaction id) returns a receipt, and the grams on it
    are a finite number less than 0.0001 away from [g]. *)
Theorem purchase_round_trip env db user_id (g : float) :
  PrimFloat.ltb 0 g = true →
  PrimFloat.leb g 10000000000 = true →
  PrimFloat.leb 1 (g * get_effective_price_per_gram_inr) = true →
  PyFloat.isfinite (g * get_effective_price_per_gram_inr) = true →
  binds user_id = true →
  uuid4 env ∉ txn_ids db →
  ∃ receipt db',
    post_purchase env db
      (PurchaseRequest.mk user_id (Some (g * get_effective_price_per_gram_inr)%float) None)
      = (OK receipt, db') ∧
    PurchaseReceipt.grams receipt
      = PyFloat.round (g * get_effective_price_per_gram_inr
                       / get_effective_price_per_gram_inr) 4 ∧
    PyFloat.isfinite (PurchaseReceipt.grams receipt) = true ∧
    (Rabs (real_of_float (PurchaseReceipt.grams receipt) - real_of_float g)
       < / 10000)%R.
Proof.
  intros Hpos Hmax Hone Hfin Hb Hfresh.
  destruct (round_trip_real g get_effective_price_per_gram_inr Hpos Hmax Hone Hfin)
    as (Hf & Hz & Hyf & Hclose).
  set (req := PurchaseRequest.mk user_id
                (Some (g * get_effective_price_per_gram_inr)%float) None).
  assert (Hv : PurchaseRequest.valid req = true).
  { unfold PurchaseRequest.valid. simpl. by rewrite Hone. }
  destruct (post_purchase_receipt env db req Hv ltac:(by intros [? _]) Hb Hf Hz Hfresh)
    as (g' & receipt & Hgr & Hr & H).
  rewrite (purchase_grams_amount req _ Hv eq_refl) in Hgr. unfold PyFloat.div in Hgr.
  rewrite Hz in Hgr. injection Hgr as <-.
  apply purchase_receipt_inv in Hr as (-> & _).
  eexists _, _. split; [exact H|]. split; [done|]. split; [exact Hyf|]. exact Hclose.
Qed.

Local Open Scope string_scope.

(** ** The ledger *)

Lemma consistent_empty : consistent empty_db.
Proof.
  split; simpl.
  - constructor.
  - intros p Hp. by apply elem_of_nil in Hp.
  - intros k u H. by rewrite lookup_empty in H.
Qed.

Lemma consistent_add_user u db : consistent db → consistent (add_user u db).
Proof.
  intros [Hn Ho Hk]. split; simpl.
  - done.
  - intros p Hp. rewrite lookup_insert_is_Some.
    destruct (decide (User.id u = Purchase.user_id p)); auto.
  - intros k v [[<- <-] | [_ H]]%lookup_insert_Some; eauto.
Qed.

Lemma consistent_advisor env db req :
  consistent db → consistent (snd (advisor env db req)).
Proof.
  intros H. rewrite advisor_store. unfold advisor_user, db_get.
  destruct (AdvisorRequest.user_id req) as [user_id|].
  - destruct (user_id =? 0)%Z; [done|]. destruct (binds user_id); [|done].
    destruct (get_user db user_id); [done|]. by apply consistent_add_user.
  - destruct (_ || _); [|done]. by apply consistent_add_user.
Qed.

Lemma consistent_resolved env db req :
  consistent db → consistent (snd (resolved env db req)).
Proof.
  intros H. unfold resolved, found_or_created. destruct (get_user db _); [done|].
  by apply consistent_add_user.
Qed.

Lemma resolved_purchases env db req :
  purchases (snd (resolved env db req)) = purchases db.
Proof. apply found_or_created_purchases. Qed.

Lemma resolved_lookup env db req :
  users (snd (resolved env db req)) !! PurchaseRequest.user_id req
    = Some (fst (resolved env db req)).
Proof. apply found_or_created_lookup. Qed.

Lemma resolved_user_id env db req :
  consistent db → User.id (fst (resolved env db req)) = PurchaseRequest.user_id req.
Proof.
  intros H.
  apply (user_key _ (consistent_resolved env db req H) _ _ (resolved_lookup env db req)).
Qed.

(** Storing a row with a fresh transaction id for a stored user. *)
Lemma consistent_add_purchase p db db' :
  consistent db → is_Some (users db !! Purchase.user_id p) →
  add_purchase p db = Some db' → consistent db'.
Proof.
  intros [Hn Ho Hk] Hu. unfold add_purchase.
  destruct (decide _) as [|Hfresh]; [done|]. intros [= <-]. split; simpl.
  - unfold txn_ids in *. simpl. rewrite fmap_app. apply NoDup_app.
    split; [done|]. split; [|apply NoDup_singleton].
    intros x Hx [->|[]%elem_of_nil]%elem_of_cons. done.
  - intros q [Hq | ->%list_elem_of_singleton]%elem_of_app; auto.
  - done.
Qed.

Lemma consistent_stored env db req g :
  consistent db → uuid4 env ∉ txn_ids db →
  consistent (mkDB (users (snd (resolved env db req)))
                (purchases db ++ [purchase_entry env (snd (resolved env db req))
                                    (fst (resolved env db req)) g])).
Proof.
  intros H Hfresh.
  apply (consistent_add_purchase
           (purchase_entry env (snd (resolved env db req)) (fst (resolved env db req)) g)
           (snd (resolved env db req))).
  - by apply consistent_resolved.
  - simpl. rewrite (resolved_user_id env db req H), resolved_lookup. eauto.
  - unfold add_purchase, txn_ids. rewrite resolved_purchases.
    by rewrite decide_False.
Qed.

Lemma consistent_purchase env db req :
  consistent db → consistent (snd (purchase env db req)).
Proof.
  intros H.
  destruct (purchase_cases env db req)
    as [(_ & _ & E) | (_ & [[_ E] | (_ & [(exc & _ & E) | (g & _ & [[_ E] | (Hf & [[_ E] | (r & _ & E)])])])])];
    rewrite E; simpl;
    auto using consistent_resolved, consistent_stored.
Qed.

Lemma consistent_handle db c : consistent db → consistent (handle db c).
Proof.
  intros H. destruct c as [env req | env req | user_id]; simpl.
  - by apply consistent_advisor.
  - unfold post_purchase. destruct (PurchaseRequest.valid req); [|done].
    by apply consistent_purchase.
  - done.
Qed.

Lemma consistent_run calls : consistent (run calls).
Proof.
  unfold run. induction calls as [|c calls IH] using rev_ind.
  - apply consistent_empty.
  - rewrite foldl_snoc. by apply consistent_handle.
Qed.

(** C8: in every store that a sequence of calls produces, two different
    purchase rows have different transaction ids. *)
Theorem txn_id_unique calls i j p q :
  purchases (run calls) !! i = Some p →
  purchases (run calls) !! j = Some q →
  i ≠ j →
  Purchase.txn_id p ≠ Purchase.txn_id q.
Proof.
  intros Hp Hq Hij Heq. apply Hij.
  pose proof (txn_ids_NoDup _ (consistent_run calls)) as Hn.
  apply (proj1 (NoDup_alt _) Hn i j (Purchase.txn_id p)); unfold txn_ids;
    rewrite list_lookup_fmap.
  - by rewrite Hp.
  - by rewrite Hq, Heq.
Qed.

(** ** The purchase history *)

#[global] Instance created_desc_total : Total created_desc.
Proof. intros p q. unfold created_desc. lia. Qed.

#[global] Instance created_desc_trans : Transitive created_desc.
Proof. intros p q r. unfold created_desc. lia. Qed.

Lemma list_purchases_rows db user_id :
  list_purchases db user_id
    ≡ₚ purchase_item <$> filter (fun p => Purchase.user_id p = user_id) (purchases db).
Proof. unfold list_purchases, query_purchases. by rewrite merge_sort_Permutation. Qed.

Lemma list_purchases_sorted db user_id :
  StronglySorted newest_first (list_purchases db user_id).
Proof.
  unfold list_purchases, query_purchases.
  apply (StronglySorted_fmap _ created_desc); [done|].
  apply StronglySorted_merge_sort; apply _.
Qed.

Lemma list_purchases_none db user_id :
  (∀ p, p ∈ purchases db → Purchase.user_id p ≠ user_id) →
  list_purchases db user_id = [].
Proof.
  intros Hnone. apply Permutation_nil_r. rewrite list_purchases_rows.
  assert (filter (fun p => Purchase.user_id p = user_id) (purchases db) = []) as ->; [|done].
  destruct (filter _ _) as [|p l] eqn:E; [done|].
  assert (p ∈ filter (fun p => Purchase.user_id p = user_id) (purchases db)) as Hp
    by (rewrite E; left).
  apply list_elem_of_filter in Hp as [Hu Hp]. by destruct (Hnone p Hp).
Qed.

Lemma list_purchases_shows db user_id :
  Forall2 shows (list_purchases db user_id) (query_purchases db user_id).
Proof.
  unfold list_purchases. induction (query_purchases db user_id) as [|row rows IH];
    constructor; [by repeat split | done].
Qed.

(** C7, as the code has it: an identifier outside the signed 64-bit range
    cannot be bound to the query and the request fails.  For every other
    identifier, in every store the service can reach, the history shows,
    field by field and in order, the purchase rows owned by that user,
    each once, newest first; it is empty when the user owns no purchase or
    is unknown. *)
Theorem list_purchases_contract calls user_id :
  (binds user_id = false →
   get_purchases (run calls) user_id = ServerError OverflowError) ∧
  (binds user_id = true →
   ∃ items rows,
     get_purchases (run calls) user_id = OK items ∧
     Forall2 shows items rows ∧
     rows ≡ₚ filter (fun p => Purchase.user_id p = user_id) (purchases (run calls)) ∧
     StronglySorted created_desc rows ∧
     StronglySorted newest_first items ∧
     ((∀ p, p ∈ purchases (run calls) → Purchase.user_id p ≠ user_id) → items = []) ∧
     (get_user (run calls) user_id = None → items = [])).
Proof.
  unfold get_purchases. split; intros ->; [done|].
  exists (list_purchases (run calls) user_id), (query_purchases (run calls) user_id).
  split; [done|]. split; [apply list_purchases_shows|].
  split; [apply merge_sort_Permutation|].
  split; [apply StronglySorted_merge_sort; apply _|].
  split; [apply list_purchases_sorted|].
  split; [apply list_purchases_none|].
  intros Hnone. apply list_purchases_none. intros p Hp Hu.
  destruct (purchase_owner _ (consistent_run calls) p Hp) as [u Hsome].
  unfold get_user in Hnone. congruence.
Qed.

(** ** Further properties of the classifier *)

Lemma append_assoc (a b c : string) : (a +:+ b) +:+ c = a +:+ (b +:+ c).
Proof.
  induction a as [|x a IH]; [done|]. rewrite !append_cons. by rewrite IH.
Qed.

Lemma append_empty_r (a : string) : a +:+ "" = a.
Proof. induction a as [|x a IH]; [done|]. rewrite append_cons. by rewrite IH. Qed.

Lemma occurs_in_trans a b c :
  PyStr.occurs_in a b → PyStr.occurs_in b c → PyStr.occurs_in a c.
Proof.
  intros (p1 & q1 & ->) (p2 & q2 & ->).
  exists (p2 +:+ p1), (q1 +:+ q2). by rewrite !append_assoc.
Qed.

(** Every keyword holds one of the five stems. *)
Lemma gold_keyword_stem kw :
  kw ∈ GOLD_KEYWORDS → ∃ stem, stem ∈ gold_stems ∧ PyStr.occurs_in stem kw.
Proof.
  unfold GOLD_KEYWORDS. intros Hin.
  repeat (apply elem_of_cons in Hin as [-> | Hin]);
    [.. | by apply elem_of_nil in Hin].
  all: first
    [ exists "gold"; split; [by left | by apply contains_spec]
    | exists "24k"; split; [by right; left | by apply contains_spec]
    | exists "24 karat"; split; [by do 2 right; left | by apply contains_spec]
    | exists "22k"; split; [by do 3 right; left | by apply contains_spec]
    | exists "sgb"; split; [by do 4 right; left | by apply contains_spec] ].
Qed.

Lemma gold_stem_keyword stem : stem ∈ gold_stems → stem ∈ GOLD_KEYWORDS.
Proof.
  unfold gold_stems, GOLD_KEYWORDS. intros Hin.
  repeat (apply elem_of_cons in Hin as [-> | Hin]);
    [.. | by apply elem_of_nil in Hin];
    repeat first [by left | right].
Qed.

(** X1: twelve of the seventeen gold keywords change nothing: a message is
    gold-related exactly when its lower-cased text contains "gold", "24k",
    "24 karat", "22k" or "sgb". *)
Theorem is_gold_related_stems (message : string) :
  is_gold_related message = true ↔
  ∃ stem, stem ∈ gold_stems ∧ PyStr.occurs_in stem (PyStr.lower message).
Proof.
  unfold is_gold_related. rewrite existsb_contains. split.
  - intros (kw & Hin & Hocc).
    destruct (gold_keyword_stem kw Hin) as (stem & Hstem & Hkw).
    exists stem. eauto using occurs_in_trans.
  - intros (stem & Hin & Hocc). exists stem. eauto using gold_stem_keyword.
Qed.

(** X2: text added around a message never takes a classification away:
    what is gold-related, or shows buy intent, still does inside any longer
    message. *)
Theorem classifier_monotone (message longer : string) :
  PyStr.occurs_in message longer →
  (is_gold_related message = true → is_gold_related longer = true) ∧
  (has_buy_intent message = true → has_buy_intent longer = true).
Proof.
  intros Hocc%occurs_in_lower. unfold is_gold_related, has_buy_intent.
  rewrite !existsb_contains.
  split; intros (kw & Hin & Hkw); exists kw; eauto using occurs_in_trans.
Qed.

(** ** Further properties of the advisor *)

(** The key given to a row inserted without one is above every key in
    use. *)
Lemma next_user_id_above db k : is_Some (users db !! k) → (k < next_user_id db)%Z.
Proof.
  unfold next_user_id.
  assert (H : ∀ k, is_Some (users db !! k) →
            ∃ m, map_fold (fun k _ acc => Some (from_option (Z.max k) k acc)) None (users db)
                 = Some m ∧ (k ≤ m)%Z).
  { apply (map_fold_weak_ind
             (fun r (m : gmap Z User.t) =>
                ∀ k, is_Some (m !! k) → ∃ mx, r = Some mx ∧ (k ≤ mx)%Z)).
    - intros j Hj. rewrite lookup_empty in Hj. by destruct Hj.
    - intros i x m r Hi IH j Hj. eexists. split; [done|].
      apply lookup_insert_is_Some in Hj as [<- | [Hne Hj]].
      + destruct r; simpl; lia.
      + destruct (IH j Hj) as (mx & -> & Hle). simpl. lia. }
  intros Hk. destruct (H k Hk) as (m & -> & Hle). lia.
Qed.

Lemma next_user_id_fresh db : users db !! next_user_id db = None.
Proof.
  destruct (users db !! next_user_id db) eqn:E; [|done].
  pose proof (next_user_id_above db (next_user_id db)) as H.
  rewrite E in H. specialize (H (mk_is_Some _ _ eq_refl)). lia.
Qed.

(** What the advisor does to the store: nothing, or one user row under a
    key that was free, the key it names. *)
Lemma advisor_user_cases env db req :
  advisor_user env db req = inl OverflowError ∨
  (∃ user_id, advisor_user env db req = inr (user_id, db)) ∨
  (∃ u, advisor_user env db req = inr (Some (User.id u), add_user u db) ∧
        users db !! User.id u = None).
Proof.
  unfold advisor_user, db_get. destruct (AdvisorRequest.user_id req) as [user_id|].
  - destruct (user_id =? 0)%Z; [by eauto|]. destruct (binds user_id); [|by left].
    unfold get_user. destruct (users db !! user_id) eqn:E; [by eauto|].
    right. right. by eexists (User.mk user_id None None None _).
  - destruct (_ || _); [|by eauto].
    right. right. eexists (User.mk (next_user_id db) _ _ _ _). simpl.
    eauto using next_user_id_fresh.
Qed.

(** X3: a supplied identifier other than 0 that fits the store's integers
    and is not in the store gets a row of its own, keyed by that
    identifier, with no profile fields, and the answer names it. *)
Theorem advisor_supplied_user env db req user_id :
  AdvisorRequest.user_id req = Some user_id →
  user_id ≠ 0%Z →
  binds user_id = true →
  get_user db user_id = None →
  get_user (snd (advisor env db req)) user_id
    = Some (User.mk user_id None None None (utcnow_user env)) ∧
  ∃ body, fst (advisor env db req) = OK body ∧
          AdvisorResponse.user_id body = Some user_id.
Proof.
  intros Hreq Hnz Hb Hnew.
  assert (Hu : advisor_user env db req =
    inr (Some user_id, add_user (User.mk user_id None None None (utcnow_user env)) db)).
  { unfold advisor_user. rewrite Hreq.
    destruct (Z.eqb_spec user_id 0) as [|_]; [done|].
    by rewrite (binds_user_get _ _ Hb), Hnew. }
  unfold advisor. rewrite Hu. simpl. split.
  - unfold get_user. simpl. by rewrite lookup_insert_eq.
  - eexists. split; [done|]. apply advisor_response_fields.
Qed.

(** X4: without a [user_id] but with a name, e-mail or phone, the advisor
    stores a new user under an identifier that was not in use, with the
    profile as given, and names that identifier in its answer. *)
Theorem advisor_registers_profile env db req :
  AdvisorRequest.user_id req = None →
  PyStr.truthy (AdvisorRequest.name req) || PyStr.truthy (AdvisorRequest.email req)
    || PyStr.truthy (AdvisorRequest.phone req) = true →
  ∃ body new_id,
    fst (advisor env db req) = OK body ∧
    AdvisorResponse.user_id body = Some new_id ∧
    get_user db new_id = None ∧
    get_user (snd (advisor env db req)) new_id
      = Some (User.mk new_id (AdvisorRequest.name req) (AdvisorRequest.email req)
                (AdvisorRequest.phone req) (utcnow_user env)).
Proof.
  intros Hreq Hprofile.
  assert (Hu : advisor_user env db req =
    inr (Some (next_user_id db),
         add_user (User.mk (next_user_id db) (AdvisorRequest.name req)
                     (AdvisorRequest.email req) (AdvisorRequest.phone req)
                     (utcnow_user env)) db)).
  { unfold advisor_user. by rewrite Hreq, Hprofile. }
  unfold advisor. rewrite Hu. simpl.
  eexists _, (next_user_id db). split; [done|].
  split; [apply advisor_response_fields|].
  split; [apply next_user_id_fresh|].
  unfold get_user. simpl. by rewrite lookup_insert_eq.
Qed.

(** X5: the advisor never touches a purchase or a stored user: the
    purchases are the same and every user row is as it was.  When it
    answers, a user that is stored afterwards was stored before or is the
    one the answer names; when it fails, the store is as it was. *)
Theorem advisor_keeps_store env db req :
  purchases (snd (advisor env db req)) = purchases db ∧
  (∀ k u, users db !! k = Some u → users (snd (advisor env db req)) !! k = Some u) ∧
  (∀ body, fst (advisor env db req) = OK body →
     ∀ k, is_Some (users (snd (advisor env db req)) !! k) →
          is_Some (users db !! k) ∨ AdvisorResponse.user_id body = Some k) ∧
  ((∀ body, fst (advisor env db req) ≠ OK body) → snd (advisor env db req) = db).
Proof.
  unfold advisor.
  destruct (advisor_user_cases env db req) as [-> | [[user_id ->] | (u & -> & Hfree)]];
    simpl.
  - repeat split; eauto; done.
  - repeat split; eauto; done.
  - repeat split.
    + intros k v Hk. rewrite lookup_insert_ne; [done|]. congruence.
    + intros body [= <-] k [<- | [_ Hk]]%lookup_insert_is_Some.
      * right. apply advisor_response_fields.
      * by left.
    + intros Hno. by destruct (Hno _ eq_refl).
Qed.

(** X6: every answer to a gold-related message contains the promotional
    nudge, and when the message mentions "price" it contains the text of
    the configured price. *)
Theorem advisor_gold_answer env db req body :
  is_gold_related (AdvisorRequest.message req) = true →
  fst (advisor env db req) = OK body →
  PyStr.occurs_in nudge (AdvisorResponse.response body) ∧
  (PyStr.contains "price" (PyStr.lower (AdvisorRequest.message req)) = true →
   PyStr.occurs_in (format_float get_effective_price_per_gram_inr)
     (AdvisorResponse.response body)).
Proof.
  intros Hgold (_ & user_id & _ & ->)%advisor_OK_inv.
  unfold advisor_response. rewrite Hgold. simpl.
  destruct (PyStr.contains "price" _); simpl; split.
  - eexists _, "". rewrite <- !append_assoc. by rewrite append_empty_r.
  - intros _. eexists "Indicative price: ₹", _. by rewrite !append_assoc.
  - eexists _, "". rewrite <- !append_assoc. by rewrite append_empty_r.
  - done.
Qed.

(** ** Further properties of purchases *)

(** X8: every way a valid request with a field can end.  An identifier
    that cannot be bound fails the lookup and changes nothing.  Otherwise
    the division fails (only at a price of zero, with an amount given),
    or the transaction id is already stored, or a row is stored; then a
    NULL among its numbers fails the receipt after the commit, and
    without one the receipt is returned. *)
Theorem post_purchase_outcomes env db req :
  PurchaseRequest.valid req = true →
  ¬ (PurchaseRequest.amount_in_inr req = None ∧ PurchaseRequest.grams req = None) →
  (binds (PurchaseRequest.user_id req) = false ∧
   post_purchase env db req = (ServerError OverflowError, db)) ∨
  (binds (PurchaseRequest.user_id req) = true ∧
   ((fst (post_purchase env db req) = ServerError ZeroDivisionError ∧
     PrimFloat.eqb get_effective_price_per_gram_inr 0 = true ∧
     is_Some (PurchaseRequest.amount_in_inr req) ∧
     purchases (snd (post_purchase env db req)) = purchases db) ∨
    (fst (post_purchase env db req) = ServerError IntegrityError ∧
     uuid4 env ∈ txn_ids db ∧
     purchases (snd (post_purchase env db req)) = purchases db) ∨
    (∃ row,
       purchases (snd (post_purchase env db req)) = (purchases db ++ [row])%list ∧
       Purchase.txn_id row = uuid4 env ∧
       (uuid4 env ∉ txn_ids db) ∧
       ((fst (post_purchase env db req) = ServerError ValidationError ∧
         is_null (Purchase.grams row) || is_null (Purchase.inr_amount row)
           || is_null (Purchase.price_per_gram row) = true) ∨
        (∃ receipt, fst (post_purchase env db req) = OK receipt ∧
           is_null (Purchase.grams row) || is_null (Purchase.inr_amount row)
             || is_null (Purchase.price_per_gram row) = false))))).
Proof.
  intros Hv Hsome. unfold post_purchase. rewrite Hv.
  destruct (purchase_cases env db req)
    as [(Ha & Hg & _) | (_ & [[Hb E] | (Hb & Hrest)])];
    [by destruct Hsome | by left |].
  right. split; [done|].
  destruct Hrest as [(exc & Hexc & E) | (g & Hg & [[Hin E] | (Hf & Hrow)])].
  - left. rewrite E. simpl. rewrite resolved_purchases.
    destruct (PurchaseRequest.amount_in_inr req) as [a|] eqn:Ha.
    + rewrite (purchase_grams_amount req a Hv Ha) in Hexc. unfold PyFloat.div in Hexc.
      destruct (PrimFloat.eqb _ 0); [|done]. injection Hexc as <-. eauto.
    + unfold purchase_grams in Hexc. rewrite Ha in Hexc.
      destruct (PurchaseRequest.grams req); [done|]. by destruct Hsome.
  - right. left. rewrite E. simpl. by rewrite resolved_purchases.
  - right. right. eexists. 
    destruct Hrow as [[Hnull E] | (receipt & Hr & E)]; rewrite E; simpl;
      (split; [done|]); (split; [done|]); (split; [done|]).
    + left. split; [done|]. unfold purchase_receipt in Hnull.
      by destruct (_ || _).
    + right. exists receipt. split; [done|].
      apply purchase_receipt_inv in Hr as (_ & -> & -> & ->). done.
Qed.

Lemma purchase_grams_raises req exc :
  purchase_grams req = inl exc → exc = ZeroDivisionError ∨ exc = TypeError.
Proof.
  unfold purchase_grams, PyFloat.div.
  destruct (PurchaseRequest.amount_in_inr req), (PurchaseRequest.grams req);
    repeat (destruct (PyFloat.truthy _) || destruct (PrimFloat.eqb _ 0));
    intros [= <-]; by eauto.
Qed.

(** X7: what a purchase without a receipt leaves behind.  Rejected by the
    handler (400), by the schema (422) or by the lookup ([OverflowError]),
    it leaves the store as it was.  After any other failure but one the
    purchases are as they were.  The exception is the [ValidationError] of
    the receipt: it comes after the commit, and the row stays. *)
Theorem failed_purchase_store env db req :
  (∀ code detail, fst (post_purchase env db req) = HTTPException code detail →
     snd (post_purchase env db req) = db) ∧
  (fst (post_purchase env db req) = RequestValidationError →
     snd (post_purchase env db req) = db) ∧
  (fst (post_purchase env db req) = ServerError OverflowError →
     snd (post_purchase env db req) = db) ∧
  (∀ exc, fst (post_purchase env db req) = ServerError exc → exc ≠ ValidationError →
     purchases (snd (post_purchase env db req)) = purchases db) ∧
  (fst (post_purchase env db req) = ServerError ValidationError →
     ∃ row, purchases (snd (post_purchase env db req)) = (purchases db ++ [row])%list ∧
            Purchase.txn_id row = uuid4 env).
Proof.
  unfold post_purchase. destruct (PurchaseRequest.valid req); [|done].
  destruct (purchase_cases env db req)
    as [(_ & _ & E) | (_ & [[_ E] | (_ & [(exc & Hexc & E) | (g & _ & [[_ E] | (_ & [[_ E] | (r & _ & E)])])])])];
    rewrite E; simpl; repeat split; try done;
    try (intros; by rewrite resolved_purchases); try (by eauto).
  - intros [= ->]. by apply purchase_grams_raises in Hexc as [|].
  - intros [= ->]. by apply purchase_grams_raises in Hexc as [|].
  - by intros exc [= <-].
Qed.

(** X9: a purchase that passes the two checks, for an identifier that
    fits the store's integers, stores its user whatever happens next
    (receipt or server error): a user that was stored stays as it was, an
    unknown one gets a row with no profile fields. *)
Theorem purchase_stores_user env db req :
  PurchaseRequest.valid req = true →
  ¬ (PurchaseRequest.amount_in_inr req = None ∧ PurchaseRequest.grams req = None) →
  binds (PurchaseRequest.user_id req) = true →
  get_user (snd (post_purchase env db req)) (PurchaseRequest.user_id req)
    = Some (default (User.mk (PurchaseRequest.user_id req) None None None (utcnow_user env))
              (get_user db (PurchaseRequest.user_id req))).
Proof.
  intros Hv Hsome Hb. unfold post_purchase. rewrite Hv.
  assert (Hu : users (snd (purchase env db req)) = users (snd (resolved env db req))).
  { destruct (purchase_cases env db req)
      as [(Ha & Hg & _) | (_ & [[Hnb _] | (_ & [(exc & _ & E) | (g & _ & [[_ E] | (_ & [[_ E] | (r & _ & E)])])])])];
      [by destruct Hsome | congruence | by rewrite E ..]. }
  unfold get_user at 1. rewrite Hu, resolved_lookup.
  unfold resolved, found_or_created, get_user. by destruct (users db !! _).
Qed.

(** X10: in every store the service can reach, a receipt is at once part
    of the history: the history of the buyer is the old one with the item
    of the receipt added, and the history of every other user is as
    before. *)
Theorem purchase_then_list calls env req receipt db' :
  post_purchase env (run calls) req = (OK receipt, db') →
  list_purchases db' (PurchaseRequest.user_id req)
    ≡ₚ receipt_item receipt :: list_purchases (run calls) (PurchaseRequest.user_id req) ∧
  ∀ other, other ≠ PurchaseRequest.user_id req →
    list_purchases db' other = list_purchases (run calls) other.
Proof.
  intros [_ H]%post_purchase_OK_valid.
  destruct (purchase_OK_inv _ _ _ _ _ H) as (_ & g & _ & _ & Hr & ->).
  apply purchase_receipt_inv in Hr as (-> & _).
  set (row := purchase_entry _ _ _ g).
  assert (Hid : Purchase.user_id row = PurchaseRequest.user_id req).
  { apply resolved_user_id, consistent_run. }
  unfold list_purchases, query_purchases. simpl. split.
  - rewrite !merge_sort_Permutation, filter_app.
    rewrite (filter_singleton_True _ row []) by done.
    rewrite fmap_app. simpl. by rewrite <- Permutation_cons_append.
  - intros other Hother. rewrite filter_app.
    rewrite (filter_singleton_False _ row []) by congruence.
    by rewrite app_nil_r.
Qed.

(** X11: in every store the service can reach, each purchase row names a
    stored user, kept under that very identifier. *)
Theorem purchases_reference_users calls p :
  p ∈ purchases (run calls) →
  ∃ u, get_user (run calls) (Purchase.user_id p) = Some u ∧
       User.id u = Purchase.user_id p.
Proof.
  intros Hp. pose proof (consistent_run calls) as Hc.
  destruct (purchase_owner _ Hc p Hp) as [u Hu].
  exists u. split; [done|]. by apply (user_key _ Hc).
Qed.

(** X12: in every store the service can reach, a receipt names the user of
    the request, the transaction id that was drawn, the clock of the
    insert, and the price that [GET /price] quotes. *)
Theorem receipt_echoes_request calls env req receipt db' :
  post_purchase env (run calls) req = (OK receipt, db') →
  PurchaseReceipt.user_id receipt = PurchaseRequest.user_id req ∧
  PurchaseReceipt.txn_id receipt = uuid4 env ∧
  PurchaseReceipt.created_at receipt = utcnow_purchase env ∧
  PurchaseReceipt.price_per_gram receipt = PriceQuote.price_per_gram_inr price ∧
  PurchaseReceipt.success receipt = true.
Proof.
  intros [_ H]%post_purchase_OK_valid.
  destruct (purchase_OK_inv _ _ _ _ _ H) as (_ & g & _ & _ & Hr & _).
  apply purchase_receipt_inv in Hr as (-> & _).
  simpl. repeat split. apply resolved_user_id, consistent_run.
Qed.

(** X14: in every store the service can reach, the items of a history have
    pairwise different transaction ids. *)
Theorem history_txn_ids_distinct calls user_id :
  NoDup (PurchaseItem.txn_id <$> list_purchases (run calls) user_id).
Proof.
  rewrite list_purchases_rows, <- list_fmap_compose.
  change (NoDup (Purchase.txn_id <$>
            filter (fun p => Purchase.user_id p = user_id) (purchases (run calls)))).
  eapply sublist_NoDup; [apply (txn_ids_NoDup _ (consistent_run calls))|].
  apply fmap_sublist, sublist_filter.
Qed.

(** ** The store only grows *)

Lemma extends_refl db : extends db db.
Proof. split; [done | auto]. Qed.

Lemma extends_trans db1 db2 db3 : extends db1 db2 → extends db2 db3 → extends db1 db3.
Proof. intros [Hp1 Hu1] [Hp2 Hu2]. split; [by etrans | auto]. Qed.

Lemma extends_add_user u db :
  users db !! User.id u = None → extends db (add_user u db).
Proof.
  intros Hfree. split; simpl; [done|].
  intros k v Hk. rewrite lookup_insert_ne; [done|]. congruence.
Qed.

Lemma extends_advisor env db req : extends db (snd (advisor env db req)).
Proof.
  rewrite advisor_store.
  destruct (advisor_user_cases env db req) as [-> | [[user_id ->] | (u & -> & Hfree)]];
    auto using extends_refl, extends_add_user.
Qed.

Lemma extends_resolved env db req : extends db (snd (resolved env db req)).
Proof.
  unfold resolved, found_or_created, get_user.
  destruct (users db !! _) eqn:E; [apply extends_refl|]. by apply extends_add_user.
Qed.

Lemma extends_post_purchase env db req : extends db (snd (post_purchase env db req)).
Proof.
  unfold post_purchase. destruct (PurchaseRequest.valid req); [|apply extends_refl].
  destruct (purchase_cases env db req)
    as [(_ & _ & E) | (_ & [[_ E] | (_ & [(exc & _ & E) | (g & _ & [[_ E] | (_ & [[_ E] | (r & _ & E)])])])])];
    rewrite E; simpl; auto using extends_refl, extends_resolved.
  all: destruct (extends_resolved env db req) as [_ Hkeep];
    split; simpl; [by apply prefix_app_r | exact Hkeep].
Qed.

Lemma extends_handle db c : extends db (handle db c).
Proof.
  destruct c as [env req | env req | user_id]; simpl.
  - apply extends_advisor.
  - apply extends_post_purchase.
  - apply extends_refl.
Qed.

(** X13: the ledger is append-only: whatever calls follow, the purchases
    stored so far stay at the front of the table, in their order and
    unchanged, and every user row stays as it was. *)
Theorem run_append_only calls more :
  extends (run calls) (run (calls ++ more)).
Proof.
  unfold run. induction more as [|c more IH] using rev_ind.
  - rewrite app_nil_r. apply extends_refl.
  - rewrite app_assoc, foldl_snoc.
    eapply extends_trans; [exact IH | apply extends_handle].
Qed.

End Service.

(** ** The service on concrete inputs *)

Abbreviation service_advisor := (advisor default_price show_default_price).
Abbreviation service_purchase := (post_purchase default_price).
Abbreviation service_run := (run default_price show_default_price).

Lemma fresh_in_empty_store (txn_id : string) : txn_id ∉ txn_ids empty_db.
Proof. apply not_elem_of_nil. Qed.

Lemma purchase_1000_receipt :
  service_purchase outside_a empty_db request_1000
    = (OK receipt_1000, snd (service_purchase outside_a empty_db request_1000)).
Proof. vm_compute. reflexivity. Qed.

(** C1, as stated, fails on scenario 1: the receipt shows 0.1538 grams and
    1000.0 rupees, while [round(0.1538 * 6500, 2)] is 999.7 (and not
    1000.07 either). *)
Lemma purchase_1000_inr_amount_not_from_rounded_grams :
  ∃ receipt db',
    service_purchase outside_a empty_db request_1000 = (OK receipt, db') ∧
    PurchaseReceipt.grams receipt = 0.1538%float ∧
    PurchaseReceipt.inr_amount receipt = 1000%float ∧
    PyFloat.round (PurchaseReceipt.grams receipt * default_price) 2 = 999.7%float ∧
    PrimFloat.eqb (PurchaseReceipt.inr_amount receipt)
      (PyFloat.round (PurchaseReceipt.grams receipt * default_price) 2) = false ∧
    PrimFloat.eqb (PurchaseReceipt.inr_amount receipt) 1000.07 = false.
Proof.
  eexists _, _. split; [apply purchase_1000_receipt|].
  repeat split; vm_compute; reflexivity.
Qed.

Lemma purchase_1000_amounts :
  ∃ g row,
    match PurchaseRequest.amount_in_inr request_1000 with
    | Some a => PyFloat.div a (get_effective_price_per_gram_inr default_price) = Some g
    | None => PurchaseRequest.grams request_1000 = Some g
    end ∧
    PurchaseReceipt.grams receipt_1000 = PyFloat.round g 4 ∧
    PurchaseReceipt.inr_amount receipt_1000
      = PyFloat.round (g * get_effective_price_per_gram_inr default_price)%float 2 ∧
    PurchaseReceipt.price_per_gram receipt_1000 = get_effective_price_per_gram_inr default_price ∧
    purchases (snd (service_purchase outside_a empty_db request_1000))
      = (purchases empty_db ++ [row])%list ∧
    Purchase.grams row = PurchaseReceipt.grams receipt_1000 ∧
    Purchase.inr_amount row = PurchaseReceipt.inr_amount receipt_1000 ∧
    Purchase.price_per_gram row = PurchaseReceipt.price_per_gram receipt_1000 ∧
    Purchase.status row = "SUCCESS".
Proof.
  apply (purchase_amounts_from_unrounded_grams default_price outside_a empty_db
           request_1000 receipt_1000).
  vm_compute. reflexivity.
Defined.

(** C2, as stated, fails: a request with both fields passes the schema and
    is carried out. *)
Lemma purchase_with_both_fields_is_processed :
  PurchaseRequest.valid request_both = true ∧
  service_purchase outside_a empty_db request_both
    = (OK receipt_1000, mkDB (users (snd (service_purchase outside_a empty_db request_both)))
                          [row_1000]).
Proof. split; vm_compute; reflexivity. Qed.

Lemma purchase_accepts_request_both :
  ∃ receipt db' row,
    service_purchase outside_a empty_db request_both = (OK receipt, db') ∧
    purchases db' = (purchases empty_db ++ [row])%list ∧
    Purchase.txn_id row = PurchaseReceipt.txn_id receipt ∧
    Purchase.grams row
      = PyFloat.round (1000 / get_effective_price_per_gram_inr default_price)%float 4.
Proof.
  refine (proj2 (proj2 (purchase_accepts_both_fields default_price outside_a empty_db
                          request_both 1000%float 5%float _ _ _)) _ _ _ _).
  - reflexivity.
  - reflexivity.
  - reflexivity.
  - reflexivity.
  - reflexivity.
  - reflexivity.
  - apply fresh_in_empty_store.
Defined.

(** C3, as stated, fails: a gold-related message without any buy-intent
    word still gets a [next_action]. *)
Lemma advisor_next_action_without_buy_intent :
  is_gold_related "tell me about gold price" = true ∧
  has_buy_intent "tell me about gold price" = false ∧
  ∃ body action,
    fst (service_advisor outside_a empty_db (ask "tell me about gold price" None)) = OK body ∧
    AdvisorResponse.redirect_to_purchase body = false ∧
    AdvisorResponse.next_action body = Some action ∧
    NextAction.endpoint action = "/purchase".
Proof.
  split; [reflexivity|]. split; [reflexivity|].
  eexists _, _. vm_compute. repeat split.
Qed.

(** Scenario 4: ["I want to buy gold now"]. *)
Lemma advisor_buy_gold_now :
  ∃ body,
    fst (service_advisor outside_a empty_db (ask "I want to buy gold now" None)) = OK body ∧
    AdvisorResponse.redirect_to_purchase body = true ∧
    ∃ action, AdvisorResponse.next_action body = Some action ∧
              NextAction.endpoint action = "/purchase".
Proof.
  destruct (advisor_next_action default_price show_default_price outside_a empty_db
              (ask "I want to buy gold now" None)) as [[_ Hanswers] Hbody].
  destruct (Hanswers eq_refl) as [body Hok].
  exists body. split; [exact Hok|].
  destruct (Hbody body Hok) as (_ & _ & Hgold). apply Hgold. reflexivity.
Defined.

(** An identifier that does not fit the store's integers gets no answer
    at all. *)
Lemma advisor_overflowing_user_id :
  service_advisor outside_a empty_db (ask "I want to buy gold now" (Some (2 ^ 63)))
    = (ServerError OverflowError, empty_db).
Proof. vm_compute. reflexivity. Qed.

(** C4 fails on the identifier 0: the advisor leaves the store without a
    user 0, where the purchase handler creates it. *)
Theorem advisor_does_not_create_user_zero :
  get_user empty_db 0 = None ∧
  AdvisorRequest.user_id (ask "gold" (Some 0)) = Some 0 ∧
  get_user (snd (service_advisor outside_a empty_db (ask "gold" (Some 0)))) 0 = None ∧
  get_user (snd (service_advisor outside_a empty_db (ask "gold" (Some 7)))) 7
    = Some (User.mk 7 None None None 1000) ∧
  get_user (snd (service_purchase outside_a empty_db
                   (PurchaseRequest.mk 0 (Some 1000%float) None))) 0
    = Some (User.mk 0 None None None 1000).
Proof. repeat split; vm_compute; reflexivity. Qed.



(** C6, as stated, fails twice: 0.0001 g is worth less than the smallest
    accepted amount, and 2000000000000.25 g comes back as
    2000000000000.2498, more than 0.0001 away. *)
Lemma purchase_round_trip_fails :
  PrimFloat.ltb 0 0.0001 = true ∧
  service_purchase outside_a empty_db (request_for_grams 0.0001)
    = (RequestValidationError, empty_db) ∧
  PurchaseRequest.valid (request_for_grams 2000000000000.25) = true ∧
  ∃ receipt db',
    service_purchase outside_a empty_db (request_for_grams 2000000000000.25)
      = (OK receipt, db') ∧
    PurchaseReceipt.grams receipt = 2000000000000.2498%float ∧
    PyFloat.round 2000000000000.25 4 = 2000000000000.25%float ∧
    PrimFloat.ltb 0.0001 (2000000000000.25 - PurchaseReceipt.grams receipt) = true.
Proof.
  split; [reflexivity|]. split; [vm_compute; reflexivity|]. split; [reflexivity|].
  eexists _, (snd (service_purchase outside_a empty_db (request_for_grams 2000000000000.25))).
  split; [vm_compute; reflexivity|]. repeat split; vm_compute; reflexivity.
Qed.

(** 0.0051 grams at 6500 a gram: 33.15 rupees buy back 0.0051 grams. *)
Lemma purchase_round_trip_0_0051 :
  ∃ receipt db',
    service_purchase outside_a empty_db (request_for_grams 0.0051) = (OK receipt, db') ∧
    PurchaseReceipt.grams receipt
      = PyFloat.round (0.0051 * get_effective_price_per_gram_inr default_price
                       / get_effective_price_per_gram_inr default_price) 4 ∧
    PyFloat.isfinite (PurchaseReceipt.grams receipt) = true ∧
    (Rabs (real_of_float (PurchaseReceipt.grams receipt) - real_of_float 0.0051)
       < / 10000)%R.
Proof.
  apply (purchase_round_trip default_price outside_a empty_db 1 0.0051%float).
  - reflexivity.
  - reflexivity.
  - reflexivity.
  - reflexivity.
  - reflexivity.
  - apply fresh_in_empty_store.
Defined.

Lemma purchase_round_trip_0_0051_grams :
  PyFloat.round (0.0051 * default_price / default_price) 4 = 0.0051%float.
Proof. vm_compute. reflexivity. Qed.

(** C7, as stated, fails: for the identifier 2^63, which no user has, the
    history is not the empty list; the query raises. *)
Lemma list_purchases_overflowing_user_id :
  get_user (service_run two_purchases) (2 ^ 63) = None ∧
  get_purchases (service_run two_purchases) (2 ^ 63) = ServerError OverflowError.
Proof. split; vm_compute; reflexivity. Qed.

(** Scenario 5, on a store with purchases of another user. *)
Lemma list_purchases_unknown_user :
  get_purchases (service_run two_purchases) 999 = OK [].
Proof.
  destruct (list_purchases_contract default_price show_default_price two_purchases 999)
    as [_ H].
  destruct (H eq_refl) as (items & rows & -> & _ & _ & _ & _ & _ & Hunknown).
  rewrite Hunknown; [reflexivity|]. vm_compute. reflexivity.
Defined.

Lemma list_purchases_two :
  get_purchases (service_run two_purchases) 1
    = OK [purchase_item row_grams; purchase_item row_1000] ∧
  get_purchases (service_run two_purchases) 999 = OK [].
Proof. split; vm_compute; reflexivity. Qed.

Lemma txn_id_unique_two_purchases :
  Purchase.txn_id row_1000 ≠ Purchase.txn_id row_grams.
Proof.
  apply (txn_id_unique default_price show_default_price two_purchases 0 1).
  - vm_compute. reflexivity.
  - vm_compute. reflexivity.
  - discriminate.
Defined.

(** A second purchase that draws a stored transaction id is refused by the
    store, and nothing is added. *)
Lemma purchase_repeated_uuid_refused :
  service_purchase outside_a (service_run [POST_purchase outside_a request_1000]) request_grams
    = (ServerError IntegrityError, service_run [POST_purchase outside_a request_1000]).
Proof. vm_compute. reflexivity. Qed.

Lemma classifier_case_insensitive :
  has_buy_intent "I want to BUY Gold now" = true ∧
  is_gold_related "I want to BUY Gold now" = true.
Proof.
  destruct (classifier_keyword_containment "I want to BUY Gold now")
    as (_ & _ & Hgold & Hbuy).
  split.
  - apply (Hbuy "buy" "BUY"); [left | reflexivity |].
    by exists "I want to ", " Gold now".
  - apply (Hgold "gold" "Gold"); [left | reflexivity |].
    by exists "I want to BUY ", " now".
Defined.

(** C10, as stated, fails: a request with both fields is not processed
    without error when its [user_id] is 2^63. *)
Lemma purchase_both_fields_overflowing_user_id :
  PurchaseRequest.valid (PurchaseRequest.mk (2 ^ 63) (Some 1000%float) (Some 5%float)) = true ∧
  service_purchase outside_a empty_db
      (PurchaseRequest.mk (2 ^ 63) (Some 1000%float) (Some 5%float))
    = (ServerError OverflowError, empty_db).
Proof. split; vm_compute; reflexivity. Qed.

Lemma purchase_amount_wins_over_grams :
  service_purchase outside_a empty_db request_both
    = service_purchase outside_a empty_db request_1000 ∧
  ∃ receipt db',
    service_purchase outside_a empty_db request_both = (OK receipt, db') ∧
    PurchaseReceipt.grams receipt
      = PyFloat.round (1000 / get_effective_price_per_gram_inr default_price)%float 4 ∧
    PurchaseReceipt.inr_amount receipt
      = PyFloat.round (1000 / get_effective_price_per_gram_inr default_price
                       * get_effective_price_per_gram_inr default_price)%float 2.
Proof.
  destruct (purchase_amount_takes_precedence default_price outside_a empty_db request_both
              1000%float 5%float) as [Hsame Hok]; [reflexivity | reflexivity | reflexivity |].
  split; [exact Hsame|].
  apply Hok; [reflexivity | reflexivity | reflexivity | apply fresh_in_empty_store].
Defined.

(** ** The further properties on concrete inputs *)

Lemma store_after_two_purchases :
  purchases (service_run two_purchases) = [row_1000; row_grams].
Proof. vm_compute. reflexivity. Qed.

Lemma classifier_monotone_sentence :
  (is_gold_related "sgb" = true → is_gold_related "what is an sgb worth" = true) ∧
  (has_buy_intent "sgb" = true → has_buy_intent "what is an sgb worth" = true).
Proof.
  apply (classifier_monotone "sgb" "what is an sgb worth").
  by exists "what is an ", " worth".
Defined.

Lemma advisor_supplied_user_seven :
  get_user (snd (service_advisor outside_a empty_db (ask "hello" (Some 7)))) 7
    = Some (User.mk 7 None None None (utcnow_user outside_a)) ∧
  ∃ body, fst (service_advisor outside_a empty_db (ask "hello" (Some 7))) = OK body ∧
          AdvisorResponse.user_id body = Some 7.
Proof.
  apply (advisor_supplied_user default_price show_default_price outside_a empty_db
           (ask "hello" (Some 7)) 7).
  - reflexivity.
  - discriminate.
  - reflexivity.
  - reflexivity.
Defined.

Lemma advisor_registers_asha :
  ∃ body new_id,
    fst (service_advisor outside_b (service_run two_purchases)
           (introduce "is gold a good idea" "Asha")) = OK body ∧
    AdvisorResponse.user_id body = Some new_id ∧
    get_user (service_run two_purchases) new_id = None ∧
    get_user (snd (service_advisor outside_b (service_run two_purchases)
                     (introduce "is gold a good idea" "Asha"))) new_id
      = Some (User.mk new_id (AdvisorRequest.name (introduce "is gold a good idea" "Asha"))
                (AdvisorRequest.email (introduce "is gold a good idea" "Asha"))
                (AdvisorRequest.phone (introduce "is gold a good idea" "Asha"))
                (utcnow_user outside_b)).
Proof.
  apply (advisor_registers_profile default_price show_default_price outside_b
           (service_run two_purchases) (introduce "is gold a good idea" "Asha")).
  - reflexivity.
  - reflexivity.
Defined.

(** The identifier given to the new user is 2: user 1 made the purchases. *)
Lemma advisor_registers_asha_as_two :
  get_user (snd (service_advisor outside_b (service_run two_purchases)
                   (introduce "is gold a good idea" "Asha"))) 2
    = Some (User.mk 2 (Some "Asha") None None 2000).
Proof. vm_compute. reflexivity. Qed.

(** An advisor call that fails leaves the store as it was. *)
Lemma advisor_overflow_keeps_store :
  snd (service_advisor outside_b (service_run two_purchases) (ask "gold" (Some (2 ^ 63))))
    = service_run two_purchases.
Proof.
  apply (advisor_keeps_store default_price show_default_price outside_b
           (service_run two_purchases) (ask "gold" (Some (2 ^ 63)))).
  intros body H. vm_compute in H. discriminate H.
Defined.

Lemma advisor_gold_price_answer :
  ∃ body,
    fst (service_advisor outside_a empty_db (ask "tell me about gold price" None)) = OK body ∧
    PyStr.occurs_in nudge (AdvisorResponse.response body) ∧
    (PyStr.contains "price"
       (PyStr.lower (AdvisorRequest.message (ask "tell me about gold price" None))) = true →
     PyStr.occurs_in (show_default_price (get_effective_price_per_gram_inr default_price))
       (AdvisorResponse.response body)).
Proof.
  eexists. split; [vm_compute; reflexivity|].
  apply (advisor_gold_answer default_price show_default_price outside_a empty_db
           (ask "tell me about gold price" None)); reflexivity.
Defined.

(** 1.5 grams on the empty store: of the five ways a purchase can end,
    this one is the receipt. *)
Lemma purchase_outcome_request_grams :
  ∃ receipt, fst (service_purchase outside_b empty_db request_grams) = OK receipt.
Proof.
  destruct (post_purchase_outcomes default_price outside_b empty_db request_grams)
    as [[Hb _] | (_ & [(H & _) | [(H & _) | (row & _ & _ & _ & [(H & _) | (receipt & H & _)])]])].
  - reflexivity.
  - intros [_ H]. discriminate H.
  - discriminate Hb.
  - vm_compute in H. discriminate H.
  - vm_compute in H. discriminate H.
  - vm_compute in H. discriminate H.
  - exists receipt. exact H.
Defined.

(** At an infinite price the row is stored with NULL for the rupees, and
    the receipt cannot be built: the fifth outcome. *)
Lemma purchase_at_infinite_price :
  fst (post_purchase infinity outside_a empty_db request_1000) = ServerError ValidationError ∧
  ∃ row, purchases (snd (post_purchase infinity outside_a empty_db request_1000)) = [row] ∧
         Purchase.grams row = 0%float ∧
         is_null (Purchase.inr_amount row) = true.
Proof. split; [reflexivity|]. eexists. vm_compute. repeat split. Qed.

(** At a price of zero the division fails, and the user has been stored
    all the same. *)
Lemma purchase_stores_user_at_zero_price :
  fst (post_purchase 0%float outside_a empty_db request_1000) = ServerError ZeroDivisionError ∧
  get_user (snd (post_purchase 0%float outside_a empty_db request_1000))
    (PurchaseRequest.user_id request_1000)
    = Some (default (User.mk (PurchaseRequest.user_id request_1000) None None None
                       (utcnow_user outside_a))
              (get_user empty_db (PurchaseRequest.user_id request_1000))).
Proof.
  split; [reflexivity|].
  apply (purchase_stores_user 0%float outside_a empty_db request_1000).
  - reflexivity.
  - intros [H _]. discriminate H.
  - reflexivity.
Defined.

Lemma purchase_then_list_grams :
  list_purchases (snd (service_purchase outside_b
                         (service_run [POST_purchase outside_a request_1000]) request_grams))
      (PurchaseRequest.user_id request_grams)
    ≡ₚ receipt_item receipt_grams
       :: list_purchases (service_run [POST_purchase outside_a request_1000])
            (PurchaseRequest.user_id request_grams) ∧
  ∀ other, other ≠ PurchaseRequest.user_id request_grams →
    list_purchases (snd (service_purchase outside_b
                           (service_run [POST_purchase outside_a request_1000]) request_grams))
        other
      = list_purchases (service_run [POST_purchase outside_a request_1000]) other.
Proof.
  apply (purchase_then_list default_price show_default_price
           [POST_purchase outside_a request_1000] outside_b request_grams receipt_grams).
  vm_compute. reflexivity.
Defined.

Lemma purchases_reference_user_one :
  ∃ u, get_user (service_run two_purchases) (Purchase.user_id row_1000) = Some u ∧
       User.id u = Purchase.user_id row_1000.
Proof.
  apply (purchases_reference_users default_price show_default_price two_purchases row_1000).
  rewrite store_after_two_purchases. left.
Defined.

Lemma receipt_echoes_request_grams :
  PurchaseReceipt.user_id receipt_grams = PurchaseRequest.user_id request_grams ∧
  PurchaseReceipt.txn_id receipt_grams = uuid4 outside_b ∧
  PurchaseReceipt.created_at receipt_grams = utcnow_purchase outside_b ∧
  PurchaseReceipt.price_per_gram receipt_grams
    = PriceQuote.price_per_gram_inr (price default_price) ∧
  PurchaseReceipt.success receipt_grams = true.
Proof.
  apply (receipt_echoes_request default_price show_default_price
           [POST_purchase outside_a request_1000] outside_b request_grams receipt_grams
           (snd (service_purchase outside_b
                   (service_run [POST_purchase outside_a request_1000]) request_grams))).
  vm_compute. reflexivity.
Defined.

(** A purchase that draws a stored transaction id leaves the purchases as
    they were. *)
Lemma failed_purchase_repeated_uuid :
  purchases (snd (service_purchase outside_a
                    (service_run [POST_purchase outside_a request_1000]) request_grams))
    = purchases (service_run [POST_purchase outside_a request_1000]).
Proof.
  refine (proj1 (proj2 (proj2 (proj2
            (failed_purchase_store default_price outside_a
               (service_run [POST_purchase outside_a request_1000]) request_grams))))
            IntegrityError _ _).
  - vm_compute. reflexivity.
  - discriminate.
Defined.
